(** * The OpenCode process supervisor (opencode-obsidian)

    A shallow embedding of [src/ProcessManager.ts] (together with its
    sibling copy, which spawns the executable directly and honours
    [settings.startupTimeout]) and of [types.ts].

    Conventions of the embedding:
    - a JavaScript string is the list of its UTF-16 code units;
    - a JavaScript [number] that the program only ever uses as an integer
      (port, exit code, milliseconds) is a [Z];
    - the class instance is a record, and every outward effect of a method
      (observer notification, [fetch], [spawn], [kill], [setTimeout]) is
      appended to a trace, so that "nothing happened" is an equation;
    - methods live in a state-and-exception monad: what a method changed
      before it threw stays changed, as in JavaScript;
    - an [await] is a point where the outside world acts: process events
      are delivered to the handlers and the clock advances.  What the world
      does during one call of [start] is an explicit script, and a call
      whose script ends while the polling loop is still waiting has the
      result [None];
    - calls on one instance do not overlap (the class has no lock and
      leaves serializing them to its callers).
    Console output is not part of the model; [spawn] and the observer
    callback are taken not to throw. *)

From Stdlib Require Import ZArith NArith Ascii String DecimalString.
From stdpp Require Import base option list gmap relations.

Local Open Scope Z_scope.

(** ** JavaScript strings *)

Abbreviation jsstring := (list N).

Definition lit (s : string) : jsstring :=
  map N_of_ascii (list_ascii_of_string s).

(** The double quote, U+0022. *)
Definition dquote : jsstring := [34%N].

(** [`${n}`] for an integral number [n]. *)
Definition numberToString (n : Z) : jsstring :=
  lit (NilZero.string_of_int (Z.to_int n)).

(** [Array.prototype.join]. *)
Fixpoint joinWith (sep : jsstring) (xs : list jsstring) : jsstring :=
  match xs with
  | [] => []
  | [x] => x
  | x :: rest => x ++ sep ++ joinWith sep rest
  end.

(** [String.prototype.includes]. *)
Fixpoint startsWith (needle hay : jsstring) : bool :=
  match needle, hay with
  | [], _ => true
  | _ :: _, [] => false
  | a :: needle', b :: hay' => bool_decide (a = b) && startsWith needle' hay'
  end.

Fixpoint includes (needle hay : jsstring) : bool :=
  startsWith needle hay ||
  match hay with
  | [] => false
  | _ :: hay' => includes needle hay'
  end.

(** JavaScript truthiness of a string, and of [string | undefined]. *)
Definition truthy (s : jsstring) : bool :=
  match s with [] => false | _ => true end.

Definition orElse (o : option jsstring) (dflt : jsstring) : jsstring :=
  match o with
  | Some s => if truthy s then s else dflt
  | None => dflt
  end.

(** ** The platform's [btoa]

    [btoa] is provided by the host, not by this repository; it is modelled
    after the HTML standard: it throws [InvalidCharacterError] when the
    argument has a code unit above U+00FF, and otherwise returns the
    padded base64 encoding of the code units read as bytes. *)

Definition base64Char (i : N) : N :=
  if (i <? 26)%N then (65 + i)%N
  else if (i <? 52)%N then (97 + (i - 26))%N
  else if (i <? 62)%N then (48 + (i - 52))%N
  else if (i =? 62)%N then 43%N
  else 47%N.

Definition padChar : N := 61%N.

Fixpoint base64 (bytes : list N) : jsstring :=
  match bytes with
  | [] => []
  | [a] =>
      [ base64Char (N.shiftr a 2);
        base64Char (N.shiftl (N.land a 3) 4);
        padChar; padChar ]
  | [a; b] =>
      [ base64Char (N.shiftr a 2);
        base64Char (N.lor (N.shiftl (N.land a 3) 4) (N.shiftr b 4));
        base64Char (N.shiftl (N.land b 15) 2);
        padChar ]
  | a :: b :: c :: rest =>
      [ base64Char (N.shiftr a 2);
        base64Char (N.lor (N.shiftl (N.land a 3) 4) (N.shiftr b 4));
        base64Char (N.lor (N.shiftl (N.land b 15) 2) (N.shiftr c 6));
        base64Char (N.land c 63) ] ++ base64 rest
  end.

Definition isLatin1 (s : jsstring) : bool :=
  forallb (fun u => (u <=? 255)%N) s.

Inductive Exn :=
  | InvalidCharacterError
  | FetchFailed
  | AbortedByTimer.

Definition btoa (s : jsstring) : Exn + jsstring :=
  if isLatin1 s then inr (base64 s) else inl InvalidCharacterError.

(** ** [types.ts] *)

Module Types.

Record OpenCodeSettings := {
  port : Z;
  hostname : jsstring;
  autoStart : bool;
  opencodePath : jsstring;
  projectDirectory : jsstring;
  startupTimeout : Z
}.

Definition DEFAULT_SETTINGS : OpenCodeSettings := {|
  port := 14096;
  hostname := lit "127.0.0.1";
  autoStart := false;
  opencodePath := lit "opencode";
  projectDirectory := [];
  startupTimeout := 15000
|}.

Definition withStartupTimeout (t : Z) (s : OpenCodeSettings) : OpenCodeSettings := {|
  port := port s;
  hostname := hostname s;
  autoStart := autoStart s;
  opencodePath := opencodePath s;
  projectDirectory := projectDirectory s;
  startupTimeout := t
|}.

End Types.

(** ** The supervisor's data *)

Inductive ProcessState := stopped | starting | running | error.

#[global] Instance ProcessState_eq_dec : EqDecision ProcessState.
Proof. solve_decision. Defined.

(** A [ChildProcess] object, identified by its pid.  Its [exitCode] and
    [signalCode] are read only by the deferred kill of [stop]. *)
Record ChildProcess := { pid : Z }.

Inductive Signal := SIGTERM | SIGKILL.

Record SpawnOptions := {
  cwd : jsstring;
  env : gmap jsstring jsstring;
  stdio : list jsstring;
  detached : bool
}.

Record SpawnConfig := {
  command : jsstring;
  args : list jsstring;
  options : SpawnOptions
}.

Record ProcessManager := {
  process : option ChildProcess;
  state : ProcessState;
  lastError : option jsstring;
  earlyExitCode : option Z;
  settings : Types.OpenCodeSettings;
  workingDirectory : jsstring;
  projectDirectory : jsstring
}.

(** The constructor; the [onStateChange] callback is the [StateChanged]
    effect below. *)
Definition new (settings0 : Types.OpenCodeSettings)
    (workingDirectory0 projectDirectory0 : jsstring) : ProcessManager := {|
  process := None;
  state := stopped;
  lastError := None;
  earlyExitCode := None;
  settings := settings0;
  workingDirectory := workingDirectory0;
  projectDirectory := projectDirectory0
|}.

Definition set_process (p : option ChildProcess) (pm : ProcessManager) := {|
  process := p; state := state pm; lastError := lastError pm;
  earlyExitCode := earlyExitCode pm; settings := settings pm;
  workingDirectory := workingDirectory pm;
  projectDirectory := projectDirectory pm |}.

Definition set_state (st : ProcessState) (pm : ProcessManager) := {|
  process := process pm; state := st; lastError := lastError pm;
  earlyExitCode := earlyExitCode pm; settings := settings pm;
  workingDirectory := workingDirectory pm;
  projectDirectory := projectDirectory pm |}.

Definition set_lastError (e : option jsstring) (pm : ProcessManager) := {|
  process := process pm; state := state pm; lastError := e;
  earlyExitCode := earlyExitCode pm; settings := settings pm;
  workingDirectory := workingDirectory pm;
  projectDirectory := projectDirectory pm |}.

Definition set_earlyExitCode (c : option Z) (pm : ProcessManager) := {|
  process := process pm; state := state pm; lastError := lastError pm;
  earlyExitCode := c; settings := settings pm;
  workingDirectory := workingDirectory pm;
  projectDirectory := projectDirectory pm |}.

Definition set_settings (s : Types.OpenCodeSettings) (pm : ProcessManager) := {|
  process := process pm; state := state pm; lastError := lastError pm;
  earlyExitCode := earlyExitCode pm; settings := s;
  workingDirectory := workingDirectory pm;
  projectDirectory := projectDirectory pm |}.

Definition set_projectDirectory (d : jsstring) (pm : ProcessManager) := {|
  process := process pm; state := state pm; lastError := lastError pm;
  earlyExitCode := earlyExitCode pm; settings := settings pm;
  workingDirectory := workingDirectory pm;
  projectDirectory := d |}.

(** ** Effects and the machine *)

Inductive Effect :=
  | StateChanged (st : ProcessState)
  | Fetch (url : jsstring) (abortAfterMs : Z)
  | Spawn (cfg : SpawnConfig) (child : ChildProcess)
  | Kill (proc : ChildProcess) (sig : Signal)
  | SetTimeout (ms : Z) (proc : ChildProcess).

Record Machine := {
  this : ProcessManager;
  trace : list Effect;
  now : Z
}.

Definition boot (pm : ProcessManager) (t0 : Z) : Machine :=
  {| this := pm; trace := []; now := t0 |}.

(** ** The monad of methods *)

Inductive Completion (A : Type) :=
  | Normal (a : A)
  | Throw (e : Exn).
Arguments Normal {A} a.
Arguments Throw {A} e.

Definition M (A : Type) : Type := Machine -> Completion A * Machine.

#[global] Instance M_ret : MRet M := fun A a s => (Normal a, s).

#[global] Instance M_bind : MBind M := fun A B f m s =>
  match m s with
  | (Normal a, s') => f a s'
  | (Throw e, s') => (Throw e, s')
  end.

Definition throw {A} (e : Exn) : M A := fun s => (Throw e, s).

Definition tryCatch {A} (body : M A) (handler : Exn -> M A) : M A := fun s =>
  match body s with
  | (Normal a, s') => (Normal a, s')
  | (Throw e, s') => handler e s'
  end.

Definition getThis : M ProcessManager := fun s => (Normal (this s), s).

Definition modifyThis (f : ProcessManager -> ProcessManager) : M unit := fun s =>
  (Normal tt, {| this := f (this s); trace := trace s; now := now s |}).

Definition emit (e : Effect) : M unit := fun s =>
  (Normal tt, {| this := this s; trace := trace s ++ [e]; now := now s |}).

Definition dateNow : M Z := fun s => (Normal (now s), s).

Definition elapse (ms : Z) : M unit := fun s =>
  (Normal tt, {| this := this s; trace := trace s; now := now s + ms |}).

Definition liftExn {A} (r : Exn + A) : M A :=
  match r with
  | inr a => mret a
  | inl e => throw e
  end.

Definition skip : M unit := mret tt.

(** ** Methods that need no script *)

Definition updateSettings (s : Types.OpenCodeSettings) : M unit :=
  modifyThis (set_settings s).

Definition updateProjectDirectory (directory : jsstring) : M unit :=
  modifyThis (set_projectDirectory directory).

Definition getState : M ProcessState :=
  pm ← getThis; mret (state pm).

Definition getLastError : M (option jsstring) :=
  pm ← getThis; mret (lastError pm).

Definition getUrl : M jsstring :=
  pm ← getThis;
  let baseUrl :=
    lit "http://" ++ Types.hostname (settings pm) ++ lit ":"
      ++ numberToString (Types.port (settings pm)) in
  encodedPath ← liftExn (btoa (projectDirectory pm));
  mret (baseUrl ++ lit "/" ++ encodedPath).

Definition setState (st : ProcessState) : M unit :=
  modifyThis (set_state st);;
  emit (StateChanged st).

Definition setError (message : jsstring) : M bool :=
  modifyThis (set_lastError (Some message));;
  setState error;;
  mret false.

Definition stop : M unit :=
  pm ← getThis;
  match process pm with
  | None => setState stopped
  | Some proc =>
      setState stopped;;
      modifyThis (set_process None);;
      emit (Kill proc SIGTERM);;
      emit (SetTimeout 2000 proc)
  end.

(** The callback that [stop] defers by 2000 ms; [exitCode] and
    [signalCode] are those of [proc] when the timer fires. *)
Definition forceKill (proc : ChildProcess)
    (exitCode : option Z) (signalCode : option jsstring) : M unit :=
  match exitCode, signalCode with
  | None, None => emit (Kill proc SIGKILL)
  | _, _ => skip
  end.

(** ** Process events and their handlers

    Both handlers are closures over [this]: they act on the supervisor
    whichever process they were attached to. *)

Inductive ProcEvent :=
  | ExitEvent (code : option Z) (signal : option jsstring)
  | ErrorEvent (code : option jsstring) (message : jsstring).

Definition onExit (code : option Z) (signal : option jsstring) : M unit :=
  modifyThis (set_process None);;
  pm ← getThis;
  match state pm, code with
  | starting, Some c =>
      if bool_decide (c = 0) then skip
      else modifyThis (set_earlyExitCode (Some c))
  | _, _ => skip
  end;;
  pm ← getThis;
  match state pm with
  | running => setState stopped
  | _ => skip
  end.

Definition onError (code : option jsstring) (message : jsstring) : M unit :=
  modifyThis (set_process None);;
  pm ← getThis;
  if bool_decide (code = Some (lit "ENOENT")) then
    setError (lit "Executable not found at '"
                ++ Types.opencodePath (settings pm) ++ lit "'");;
    skip
  else
    setError (lit "Failed to start: " ++ message);;
    skip.

Definition handle (ev : ProcEvent) : M unit :=
  match ev with
  | ExitEvent code signal => onExit code signal
  | ErrorEvent code message => onError code message
  end.

Fixpoint deliver (evs : list ProcEvent) : M unit :=
  match evs with
  | [] => skip
  | ev :: rest => handle ev;; deliver rest
  end.

(** ** Awaiting *)

(** What happens while the caller is suspended: the events that reach the
    handlers, and by how much [Date.now()] has moved on resumption. *)
Record Await := {
  arrivals : list ProcEvent;
  took : Z
}.

Definition await (a : Await) : M unit :=
  deliver (arrivals a);;
  elapse (took a).

Inductive FetchOutcome :=
  | Responded (status : Z)
  | NetworkError
  | TimedOut.

Record Probe := {
  wait : Await;
  outcome : FetchOutcome
}.

(** [Response.ok]. *)
Definition responseOk (status : Z) : bool :=
  (200 <=? status) && (status <=? 299).

(** [fetch(url, { method: "GET", signal: AbortSignal.timeout(2000) })]. *)
Definition fetch (url : jsstring) (p : Probe) : M Z :=
  emit (Fetch url 2000);;
  await (wait p);;
  match outcome p with
  | Responded status => mret status
  | NetworkError => throw FetchFailed
  | TimedOut => throw AbortedByTimer
  end.

Definition checkServerHealth (p : Probe) : M bool :=
  tryCatch
    (url ← getUrl;
     response ← fetch (url ++ lit "/global/health") p;
     mret (responseOk response))
    (fun _ => mret false).

Definition sleep (ms : Z) (a : Await) : M unit := await a.

(** One turn of the polling loop as the world plays it. *)
Record Tick := {
  probe : Probe;
  nap : Await
}.

Definition pollInterval : Z := 500.

(** The [while] loop of [waitForServerOrExit].  The result is [None] when
    the script ends while the loop is still waiting. *)
Fixpoint pollFrom (startTime timeoutMs : Z) (ticks : list Tick) : M (option bool) :=
  t ← dateNow;
  if bool_decide (t - startTime < timeoutMs) then
    pm ← getThis;
    match process pm with
    | None => mret (Some false)
    | Some _ =>
        match ticks with
        | [] => mret None
        | tk :: rest =>
            healthy ← checkServerHealth (probe tk);
            if healthy : bool then mret (Some true)
            else
              sleep pollInterval (nap tk);;
              pollFrom startTime timeoutMs rest
        end
    end
  else mret (Some false).

Definition waitForServerOrExit (timeoutMs : Z) (ticks : list Tick) : M (option bool) :=
  startTime ← dateNow;
  pollFrom startTime timeoutMs ticks.

(** ** The Node runtime the supervisor reads

    [os.homedir], [os.platform], [process.env], [fs.existsSync] and
    [path.join] belong to the runtime, not to the repository. *)

Record Node := {
  homedir : jsstring;
  platform : jsstring;
  processEnv : gmap jsstring jsstring;
  existsSync : jsstring -> bool;
  join : list jsstring -> jsstring
}.

(** [xs.filter(Boolean)] on an array of [string | undefined]. *)
Fixpoint filterBoolean (xs : list (option jsstring)) : list jsstring :=
  match xs with
  | [] => []
  | Some x :: rest => if truthy x then x :: filterBoolean rest else filterBoolean rest
  | None :: rest => filterBoolean rest
  end.

Definition sourceLine (path : jsstring) : jsstring :=
  lit "source " ++ dquote ++ path ++ dquote ++ lit " 2>/dev/null".

Definition nvmLine (nvmDir nvmSh : jsstring) : jsstring :=
  lit "export NVM_DIR=" ++ dquote ++ nvmDir ++ dquote ++ lit "; " ++ sourceLine nvmSh.

Definition pathLine (dirs : list jsstring) : jsstring :=
  lit "export PATH=" ++ dquote ++ joinWith (lit ":") dirs ++ lit ":$PATH" ++ dquote.

Definition brewPaths : list jsstring :=
  [lit "/opt/homebrew/bin"; lit "/usr/local/bin"].

Definition stdioPipes : list jsstring := [lit "ignore"; lit "pipe"; lit "pipe"].

Section Spawning.

Context (node : Node).

(** The [for ... break] loop over [nvmDirs]: what it pushes. *)
Fixpoint firstNvm (nvmDirs : list jsstring) : list jsstring :=
  match nvmDirs with
  | [] => []
  | nvmDir :: rest =>
      let nvmSh := join node [nvmDir; lit "nvm.sh"] in
      if existsSync node nvmSh then [nvmLine nvmDir nvmSh]
      else firstNvm rest
  end.

Definition nvmDirs (home : jsstring) : list jsstring :=
  filterBoolean
    [ Some (join node [home; lit ".nvm"]);
      Some (join node [home; lit ".config"; lit "nvm"]);
      processEnv node !! lit "NVM_DIR" ].

(** The final value of the local array [parts]. *)
Definition unixEnvParts (home : jsstring) (isZsh : bool) : list jsstring :=
  let shellParts :=
    if isZsh then
      let zshrc := join node [home; lit ".zshrc"] in
      if existsSync node zshrc then [sourceLine zshrc] else []
    else
      let bashrc := join node [home; lit ".bashrc"] in
      firstNvm (nvmDirs home)
        ++ (if existsSync node bashrc then [sourceLine bashrc] else []) in
  let existingBrewPaths := filter (fun p => existsSync node p = true) brewPaths in
  shellParts
    ++ (if bool_decide (0 < length existingBrewPaths)%nat
        then [pathLine existingBrewPaths] else []).

Definition buildUnixEnvSetup (home : jsstring) (isZsh : bool) : jsstring :=
  let parts := unixEnvParts home isZsh in
  if bool_decide (0 < length parts)%nat
  then joinWith (lit "; ") parts ++ lit ";"
  else [].

Definition buildSpawnConfig (pm : ProcessManager) (baseCommand : jsstring) : SpawnConfig :=
  let home := homedir node in
  let plat := platform node in
  if bool_decide (plat = lit "win32") then
    {| command := lit "cmd.exe";
       args := [lit "/c"; baseCommand];
       options := {| cwd := workingDirectory pm;
                     env := processEnv node;
                     stdio := stdioPipes;
                     detached := false |} |}
  else
    let shell := orElse (processEnv node !! lit "SHELL") (lit "/bin/bash") in
    let isZsh := includes (lit "zsh") shell in
    let envSetup := buildUnixEnvSetup home isZsh in
    let fullCommand :=
      if truthy envSetup then envSetup ++ lit " " ++ baseCommand else baseCommand in
    {| command := shell;
       args := [lit "-c"; fullCommand];
       options :=
         {| cwd := workingDirectory pm;
            env := <[lit "XDG_CONFIG_HOME" :=
                       orElse (processEnv node !! lit "XDG_CONFIG_HOME")
                              (home ++ lit "/.config")]>
                     (<[lit "HOME" := home]> (processEnv node));
            stdio := stdioPipes;
            detached := false |} |}.

Definition baseCmd (pm : ProcessManager) : jsstring :=
  Types.opencodePath (settings pm) ++ lit " serve --port "
    ++ numberToString (Types.port (settings pm)) ++ lit " --hostname "
    ++ Types.hostname (settings pm) ++ lit " --cors app://obsidian.md".

(** The spawn of [src/ProcessManager.ts]. *)
Definition shellSpawnConfig (pm : ProcessManager) : SpawnConfig :=
  buildSpawnConfig pm (baseCmd pm).

(** The spawn of the sibling copy: the executable itself, no shell. *)
Definition directSpawnConfig (pm : ProcessManager) : SpawnConfig :=
  {| command := Types.opencodePath (settings pm);
     args := [ lit "serve"; lit "--port";
               numberToString (Types.port (settings pm));
               lit "--hostname"; Types.hostname (settings pm);
               lit "--cors"; lit "app://obsidian.md" ];
     options := {| cwd := workingDirectory pm;
                   env := processEnv node;
                   stdio := stdioPipes;
                   detached := false |} |}.

End Spawning.

(** ** [start]

    What the world does during one call: the answer to the first health
    check, the object [spawn] returns, and the turns of the polling loop. *)

Record StartScript := {
  precheck : Probe;
  child : ChildProcess;
  ticks : list Tick
}.

(** The failure classification at the end of [start]. *)
Definition classifyFailure : M bool :=
  stop;;
  pm ← getThis;
  match earlyExitCode pm with
  | Some c =>
      setError (lit "Process exited unexpectedly (exit code "
                  ++ numberToString c ++ lit ")")
  | None =>
      match process pm with
      | None => setError (lit "Process exited before server became ready")
      | Some _ => setError (lit "Server failed to start within timeout")
      end
  end.

(** The body the two copies of [start] share.  They differ in the spawn
    configuration and in the argument of [waitForServerOrExit] only; these
    are [spawnConfigOf] and [deadlineOf].  The result is [None] while the
    promise is still pending at the end of the script. *)
Definition startBody (spawnConfigOf : ProcessManager -> SpawnConfig)
    (deadlineOf : ProcessManager -> Z) (w : StartScript) : M (option bool) :=
  pm ← getThis;
  if bool_decide (state pm = running) || bool_decide (state pm = starting) then
    mret (Some true)
  else
    setState starting;;
    modifyThis (set_lastError None);;
    modifyThis (set_earlyExitCode None);;
    pm ← getThis;
    if negb (truthy (projectDirectory pm)) then
      r ← setError (lit "Project directory (vault) not configured");
      mret (Some r)
    else
      healthy ← checkServerHealth (precheck w);
      if healthy : bool then
        setState running;;
        mret (Some true)
      else
        pm ← getThis;
        emit (Spawn (spawnConfigOf pm) (child w));;
        modifyThis (set_process (Some (child w)));;
        pm ← getThis;
        ready ← waitForServerOrExit (deadlineOf pm) (ticks w);
        match ready with
        | None => mret None
        | Some true =>
            setState running;;
            mret (Some true)
        | Some false =>
            pm ← getThis;
            if bool_decide (state pm = error) then mret (Some false)
            else
              r ← classifyFailure;
              mret (Some r)
        end.

(** [src/ProcessManager.ts]. *)
Definition start (node : Node) : StartScript -> M (option bool) :=
  startBody (shellSpawnConfig node) (fun _ => 15000).

(** The sibling copy. *)
Module Sibling.

Definition start (node : Node) : StartScript -> M (option bool) :=
  startBody (directSpawnConfig node)
            (fun pm => Types.startupTimeout (settings pm)).

End Sibling.

(** ** Reachable machines

    The public operations, run one after the other (the class has no lock,
    its callers serialize), with process events and the deferred kill
    arriving between them.  A [start] whose script ends early leaves the
    machine as the getters would see it during that [await]. *)

Inductive Call :=
  | CallStart (w : StartScript)
  | CallStop
  | CallGetState
  | CallGetLastError
  | CallGetUrl
  | CallUpdateSettings (s : Types.OpenCodeSettings)
  | CallUpdateProjectDirectory (d : jsstring)
  | EventArrives (ev : ProcEvent)
  | TimerFires (proc : ChildProcess) (exitCode : option Z) (signalCode : option jsstring).

Definition perform (node : Node) (c : Call) (s : Machine) : Machine :=
  match c with
  | CallStart w => (start node w s).2
  | CallStop => (stop s).2
  | CallGetState => (getState s).2
  | CallGetLastError => (getLastError s).2
  | CallGetUrl => (getUrl s).2
  | CallUpdateSettings st => (updateSettings st s).2
  | CallUpdateProjectDirectory d => (updateProjectDirectory d s).2
  | EventArrives ev => (handle ev s).2
  | TimerFires proc exitCode signalCode => (forceKill proc exitCode signalCode s).2
  end.

Inductive Reachable (node : Node) : Machine -> Prop :=
  | reach_new settings0 workingDirectory0 projectDirectory0 t0 :
      Reachable node (boot (new settings0 workingDirectory0 projectDirectory0) t0)
  | reach_call s c :
      Reachable node s -> Reachable node (perform node c s).

Definition lastErrorNonEmpty (pm : ProcessManager) : Prop :=
  exists message, lastError pm = Some message /\ message <> [].

(** ** Sample runs *)

(** [path.join] on segments that need no normalisation. *)
Definition plainJoin (segments : list jsstring) : jsstring :=
  joinWith (lit "/") segments.

Definition bashHost : Node := {|
  homedir := lit "/home/u";
  platform := lit "linux";
  processEnv := {[ lit "SHELL" := lit "/bin/bash" ]};
  existsSync := fun p =>
    bool_decide (p ∈ [ lit "/home/u/.bashrc"; lit "/usr/local/bin";
                       lit "/home/u/.config/nvm/nvm.sh" ]);
  join := plainJoin
|}.

Definition vaultManager (timeoutMs : Z) : ProcessManager :=
  new (Types.withStartupTimeout timeoutMs Types.DEFAULT_SETTINGS)
      (lit "/vault/.obsidian/plugins/opencode") (lit "/vault").

Definition quiet (ms : Z) : Await := {| arrivals := []; took := ms |}.

Definition refused (ms : Z) : Probe :=
  {| wait := quiet ms; outcome := NetworkError |}.

Definition healthy (ms : Z) : Probe :=
  {| wait := quiet ms; outcome := Responded 200 |}.

(** A turn in which the process lives on and the server does not answer:
    100 ms for the refused request, 500 ms asleep. *)
Definition idle : Tick := {| probe := refused 100; nap := quiet 500 |}.

(** The process never exits and the server never answers. *)
Definition neverReady (turns : nat) : StartScript :=
  {| precheck := refused 5; child := {| pid := 4242 |}; ticks := replicate turns idle |}.

(** A turn during whose probe [events] reach the handlers. *)
Definition eventful (events : list ProcEvent) (answer : FetchOutcome) : Tick :=
  {| probe := {| wait := {| arrivals := events; took := 40 |}; outcome := answer |};
     nap := quiet 500 |}.

Definition oneTurn (tk : Tick) : StartScript :=
  {| precheck := refused 5; child := {| pid := 4242 |}; ticks := [tk] |}.

(** A server is already listening. *)
Definition alreadyUp : StartScript :=
  {| precheck := healthy 5; child := {| pid := 4242 |}; ticks := [] |}.

(** ** Vocabulary of the properties *)

Definition urlOf (pm : ProcessManager) (token : jsstring) : jsstring :=
  lit "http://" ++ Types.hostname (settings pm) ++ lit ":"
    ++ numberToString (Types.port (settings pm)) ++ lit "/" ++ token.

(** The three shapes a part of the setup may have, each with the existence
    checks it must have passed. *)
Inductive Guarded (node : Node) : jsstring -> Prop :=
  | guarded_source path :
      existsSync node path = true ->
      Guarded node
        (lit "source " ++ dquote ++ path ++ dquote ++ lit " 2>/dev/null")
  | guarded_nvm nvmDir :
      existsSync node (join node [nvmDir; lit "nvm.sh"]) = true ->
      Guarded node
        (lit "export NVM_DIR=" ++ dquote ++ nvmDir ++ dquote
           ++ lit "; source " ++ dquote ++ join node [nvmDir; lit "nvm.sh"]
           ++ dquote ++ lit " 2>/dev/null")
  | guarded_path dirs :
      dirs <> [] ->
      Forall (fun d => existsSync node d = true /\ d ∈ brewPaths) dirs ->
      Guarded node
        (lit "export PATH=" ++ dquote ++ joinWith (lit ":") dirs
           ++ lit ":$PATH" ++ dquote).

(** The signals a trace sends, in order. *)
Fixpoint signalsSent (tr : list Effect) : list (ChildProcess * Signal) :=
  match tr with
  | [] => []
  | Kill proc sig :: rest => (proc, sig) :: signalsSent rest
  | _ :: rest => signalsSent rest
  end.

Definition exitedUnexpectedly (c : Z) : jsstring :=
  lit "Process exited unexpectedly (exit code " ++ numberToString c ++ lit ")".

Definition ErrorHasMessage (s : Machine) : Prop :=
  state (this s) = error -> lastErrorNonEmpty (this s).

(** [m] takes machines in [P] to machines in [Q], however it completes. *)
Definition hoare {A} (P : Machine -> Prop) (m : M A) (Q : Machine -> Prop) : Prop :=
  forall s, P s -> Q (m s).2.

Definition keeps {A} (m : M A) : Prop := hoare ErrorHasMessage m ErrorHasMessage.

(** The same supervisor with another [startupTimeout] in its settings. *)
Definition retimeManager (t : Z) (pm : ProcessManager) : ProcessManager :=
  set_settings (Types.withStartupTimeout t (settings pm)) pm.

Definition retime (t : Z) (s : Machine) : Machine :=
  {| this := retimeManager t (this s); trace := trace s; now := now s |}.

(** [m] runs the same way whatever [startupTimeout] is set to. *)
Definition blind {A} (t : Z) (m : M A) : Prop :=
  forall s, m (retime t s) = ((m s).1, retime t (m s).2).

(** The machine after one [idle] turn of the polling loop. *)
Definition afterIdle (s : Machine) : Machine :=
  {| this := this s;
     trace := trace s ++ [Fetch (urlOf (this s) (base64 (projectDirectory (this s)))
                                   ++ lit "/global/health") 2000];
     now := now s + 100 + 500 |}.

(** Two machines that hold a process handle. *)
Definition midStart : Machine :=
  boot (set_process (Some {| pid := 4242 |}) (set_state starting (vaultManager 15000))) 0.

Definition serving : Machine :=
  boot (set_process (Some {| pid := 4242 |}) (set_state running (vaultManager 15000))) 0.

(** ** Vocabulary of the further properties *)

(** The processes a trace spawns, the states it announces and the timers
    it arms, in order. *)
Definition spawnedOf (tr : list Effect) : list ChildProcess :=
  omap (fun e => match e with Spawn _ proc => Some proc | _ => None end) tr.

Definition notifiedOf (tr : list Effect) : list ProcessState :=
  omap (fun e => match e with StateChanged st => Some st | _ => None end) tr.

Definition timersOf (tr : list Effect) : list (Z * ChildProcess) :=
  omap (fun e => match e with SetTimeout ms proc => Some (ms, proc) | _ => None end) tr.

Definition fetchesOf (tr : list Effect) : list jsstring :=
  omap (fun e => match e with Fetch url _ => Some url | _ => None end) tr.

(** A probe that is answered with a status in 200..299. *)
Definition answeredOk (p : Probe) : Prop :=
  exists status, outcome p = Responded status /\ 200 <= status <= 299.

(** [m] never throws. *)
Definition total {A} (m : M A) : Prop :=
  forall s, exists a, (m s).1 = Normal a.

(** [m], started in [P], returns normally with a value and a machine in [Q]. *)
Definition ensures {A} (P : Machine -> Prop) (m : M A) (Q : A -> Machine -> Prop) : Prop :=
  forall s, P s -> exists a, (m s).1 = Normal a /\ Q a (m s).2.

Definition preserves {A} (I : Machine -> Prop) (m : M A) : Prop := hoare I m I.

(** What [start] leaves behind, by its result: [true] goes with [running]
    (or with the [starting] of a call already under way), [false] with
    [error] and a message, and a call is still pending only while the
    supervisor holds a process handle. *)
Definition startSettled (r : option bool) (s : Machine) : Prop :=
  match r with
  | Some true => state (this s) = running \/ state (this s) = starting
  | Some false => state (this s) = error /\ lastErrorNonEmpty (this s)
  | None => is_Some (process (this s))
  end.

(** While a start is under way no stale error is on display. *)
Definition StartingIsClean (s : Machine) : Prop :=
  state (this s) = starting -> lastError (this s) = None.

(** The state is the last one the observer was told ([stopped], the
    initial state, when it was told nothing yet). *)
Definition ObserverInSync (s : Machine) : Prop :=
  state (this s) = default stopped (last (notifiedOf (trace s))).

(** The handle, every [SIGTERM] and every armed timer concern a process
    this supervisor spawned, and timers are armed for 2000 ms. *)
Definition SpawnSafe (s : Machine) : Prop :=
  (forall proc, process (this s) = Some proc -> proc ∈ spawnedOf (trace s))
  /\ (forall proc, (proc, SIGTERM) ∈ signalsSent (trace s) -> proc ∈ spawnedOf (trace s))
  /\ (forall ms proc, (ms, proc) ∈ timersOf (trace s) ->
        ms = 2000 /\ proc ∈ spawnedOf (trace s)).

(** [Response.ok] of the answer to a probe, [false] when there is none. *)
Definition answersOk (p : Probe) : bool :=
  match outcome p with
  | Responded status => responseOk status
  | NetworkError => false
  | TimedOut => false
  end.

(** Whether a call of [start] goes as far as spawning: the supervisor is
    not started already, a project directory is set, and the first health
    check does not find a server. *)
Definition willSpawn (w : StartScript) (pm : ProcessManager) : bool :=
  negb (bool_decide (state pm = running) || bool_decide (state pm = starting))
  && truthy (projectDirectory pm)
  && negb (answersOk (precheck w) && isLatin1 (projectDirectory pm)).

(** The processes spawned so far are exactly [l]. *)
Definition SpawnedIs (l : list ChildProcess) (s : Machine) : Prop :=
  spawnedOf (trace s) = l.

(** The project directory is [d] and the requests sent so far are [l]. *)
Definition DirectoryAndFetches (d : jsstring) (l : list jsstring) (s : Machine) : Prop :=
  projectDirectory (this s) = d /\ fetchesOf (trace s) = l.

(** A Windows host and a host on which none of the probed paths exists. *)
Definition cmdHost : Node := {|
  homedir := lit "C:/Users/u";
  platform := lit "win32";
  processEnv := {[ lit "PATH" := lit "C:/Windows" ]};
  existsSync := fun _ => true;
  join := plainJoin
|}.

Definition bareHost : Node := {|
  homedir := lit "/home/u";
  platform := lit "linux";
  processEnv := {[ lit "PATH" := lit "/usr/bin" ]};
  existsSync := fun _ => false;
  join := plainJoin
|}.

(** A host where both [~/.nvm] and the directory named by [$NVM_DIR] hold
    an [nvm.sh]. *)
Definition nvmHost : Node := {|
  homedir := lit "/home/u";
  platform := lit "linux";
  processEnv := {[ lit "NVM_DIR" := lit "/opt/nvm" ]};
  existsSync := fun p =>
    bool_decide (p ∈ [ lit "/home/u/.nvm/nvm.sh"; lit "/opt/nvm/nvm.sh" ]);
  join := plainJoin
|}.

(** A fresh supervisor without a project directory, and one whose project
    directory is the single code unit U+4E2D. *)
Definition unconfigured : Machine :=
  boot (new Types.DEFAULT_SETTINGS (lit "/vault/.obsidian") []) 0.

Definition beyondLatin1 : Machine :=
  boot (new Types.DEFAULT_SETTINGS (lit "/vault/.obsidian") [20013%N]) 0.

(** A supervisor in the middle of a start that found no server yet. *)
Definition polling : Machine :=
  perform bashHost (CallStart (neverReady 3)) (boot (vaultManager 15000) 0).

(** The same after a [stop]. *)
Definition stoppedAfterPolling : Machine :=
  perform bashHost CallStop polling.

(** A turn in which the clock does not run backwards during the probe
    and the 500 ms sleep lasts at least its 500 ms. *)
Definition wellTimed (tk : Tick) : Prop :=
  0 <= took (wait (probe tk)) /\ pollInterval <= took (nap tk).

(** The clock reads [t]; the settings are [st]. *)
Definition ClockIs (t : Z) (s : Machine) : Prop := now s = t.

Definition SettingsAre (st : Types.OpenCodeSettings) (s : Machine) : Prop :=
  settings (this s) = st.

(** Reading base64 back, for the statement that [btoa] loses nothing:
    the value of a digit, and the bytes of a padded text. *)
Definition base64Value (c : N) : N :=
  if (65 <=? c)%N && (c <=? 90)%N then (c - 65)%N
  else if (97 <=? c)%N && (c <=? 122)%N then (c - 71)%N
  else if (48 <=? c)%N && (c <=? 57)%N then (c + 4)%N
  else if (c =? 43)%N then 62%N
  else 63%N.

Fixpoint unbase64 (chars : jsstring) : list N :=
  match chars with
  | c1 :: c2 :: c3 :: c4 :: rest =>
      let v1 := base64Value c1 in
      let v2 := base64Value c2 in
      let v3 := base64Value c3 in
      let v4 := base64Value c4 in
      if (c3 =? padChar)%N then [(v1 * 4 + v2 / 16)%N]
      else if (c4 =? padChar)%N then
        [(v1 * 4 + v2 / 16)%N; ((v2 mod 16) * 16 + v3 / 4)%N]
      else
        (v1 * 4 + v2 / 16)%N :: ((v2 mod 16) * 16 + v3 / 4)%N
          :: ((v3 mod 4) * 64 + v4)%N :: unbase64 rest
  | _ => []
  end.

(** The bytes 0..255, for checks by enumeration. *)
Definition allBytes : list N := map N.of_nat (seq 0 256).

Definition headPairOk (a b : N) : bool :=
  let c1 := base64Char (N.shiftr a 2) in
  let c2 := base64Char (N.lor (N.shiftl (N.land a 3) 4) (N.shiftr b 4)) in
  (base64Value c1 * 4 + base64Value c2 / 16 =? a)%N
  && (base64Value c2 mod 16 =? b / 16)%N.

Definition tailPairOk (b c : N) : bool :=
  let c3 := base64Char (N.lor (N.shiftl (N.land b 15) 2) (N.shiftr c 6)) in
  let c4 := base64Char (N.land c 63) in
  (base64Value c3 / 4 =? b mod 16)%N
  && ((base64Value c3 mod 4) * 64 + base64Value c4 =? c)%N
  && negb (c3 =? padChar)%N && negb (c4 =? padChar)%N.


(** * Properties *)

(** ** Strings *)

Example btoa_vault :
  btoa (lit "/home/u/vault") = inr (lit "L2hvbWUvdS92YXVsdA==").
Proof. reflexivity. Qed.

Example btoa_padding :
  (btoa (lit "a"), btoa (lit "ab"), btoa (lit "abc"))
  = (inr (lit "YQ=="), inr (lit "YWI="), inr (lit "YWJj")).
Proof. reflexivity. Qed.

Example btoa_high_bytes :
  btoa [255%N; 254%N; 62%N] = inr (lit "//4+").
Proof. reflexivity. Qed.

Example numberToString_samples :
  (numberToString 14096, numberToString 0, numberToString (-3))
  = (lit "14096", lit "0", lit "-3").
Proof. reflexivity. Qed.


(** ** Running the monad *)

Lemma bind_normal {A B} (m : M A) (f : A -> M B) s a s' :
  m s = (Normal a, s') -> (m ≫= f) s = f a s'.
Proof. intros H. unfold mbind, M_bind. by rewrite H. Qed.

Lemma bind_throw {A B} (m : M A) (f : A -> M B) s e s' :
  m s = (Throw e, s') -> (m ≫= f) s = (Throw e, s').
Proof. intros H. unfold mbind, M_bind. by rewrite H. Qed.

Ltac run :=
  unfold setError, setState, getState, getLastError, updateSettings,
    updateProjectDirectory, skip, getThis, modifyThis, emit, dateNow, elapse,
    throw, liftExn, mbind, M_bind, mret, M_ret in *;
  cbn in *.

(** ** Configuration updates *)

(** C9: [updateSettings] and [updateProjectDirectory] return normally and
    change nothing but the stored settings, respectively the stored project
    directory: process handle, state, last error, early exit code and
    working directory are as before, the trace gains no effect (so no
    observer notification), and the clock is untouched. *)
Theorem update_only_configuration (s : Machine)
    (settings' : Types.OpenCodeSettings) (directory : jsstring) :
  updateSettings settings' s
    = (Normal tt,
       {| this := {| process := process (this s);
                     state := state (this s);
                     lastError := lastError (this s);
                     earlyExitCode := earlyExitCode (this s);
                     settings := settings';
                     workingDirectory := workingDirectory (this s);
                     projectDirectory := projectDirectory (this s) |};
          trace := trace s;
          now := now s |})
  /\ updateProjectDirectory directory s
    = (Normal tt,
       {| this := {| process := process (this s);
                     state := state (this s);
                     lastError := lastError (this s);
                     earlyExitCode := earlyExitCode (this s);
                     settings := settings (this s);
                     workingDirectory := workingDirectory (this s);
                     projectDirectory := directory |};
          trace := trace s;
          now := now s |}).
Proof. split; reflexivity. Qed.

(** ** [stop] *)

Lemma stop_result (s : Machine) :
  stop s
  = (Normal tt,
     {| this := set_process None (set_state stopped (this s));
        trace := trace s ++ StateChanged stopped ::
                   match process (this s) with
                   | Some proc => [Kill proc SIGTERM; SetTimeout 2000 proc]
                   | None => []
                   end;
        now := now s |}).
Proof.
  unfold stop. run. destruct s as [[p st le ec cf wd pd] tr t]; cbn.
  destruct p as [proc|]; cbn; [|reflexivity].
  by rewrite <- !app_assoc.
Qed.

(** C5: from any machine, whatever its state and whether or not it holds a
    process handle, [stop] returns normally and leaves the state [stopped]
    and the handle cleared.  A second [stop] returns normally as well and
    leaves the supervisor exactly as the first one did: it sends no signal
    and arms no timer, its only effect is one more [stopped] notification. *)
Theorem stop_total_idempotent (s : Machine) :
  (stop s).1 = Normal tt
  /\ state (this (stop s).2) = stopped
  /\ process (this (stop s).2) = None
  /\ (stop (stop s).2).1 = Normal tt
  /\ this (stop (stop s).2).2 = this (stop s).2
  /\ trace (stop (stop s).2).2 = trace (stop s).2 ++ [StateChanged stopped]
  /\ now (stop (stop s).2).2 = now (stop s).2.
Proof.
  rewrite (stop_result (stop s).2), (stop_result s); cbn.
  repeat split; reflexivity.
Qed.

(** ** The exit observer *)

(** C6: the exit handler returns normally and always clears the stored
    process handle.  If the state is [starting] and the exit code is
    neither null nor zero, that code becomes [earlyExitCode].  If the state
    is [running], the state becomes [stopped], the observer is told so, and
    no error is recorded: [lastError] and [earlyExitCode] are untouched. *)
Theorem exit_observer (code : option Z) (signal : option jsstring) (s : Machine) :
  (onExit code signal s).1 = Normal tt
  /\ process (this (onExit code signal s).2) = None
  /\ (state (this s) = starting ->
      forall c, code = Some c -> c <> 0 ->
      earlyExitCode (this (onExit code signal s).2) = Some c)
  /\ (state (this s) = running ->
      state (this (onExit code signal s).2) = stopped
      /\ lastError (this (onExit code signal s).2) = lastError (this s)
      /\ earlyExitCode (this (onExit code signal s).2) = earlyExitCode (this s)
      /\ trace (onExit code signal s).2 = trace s ++ [StateChanged stopped]).
Proof.
  destruct s as [[p st le ec cf wd pd] tr t]; unfold onExit; run.
  destruct st, code as [c|]; try case_bool_decide; cbn;
    repeat split; try done; intros; simplify_eq; done.
Qed.

Lemma exit_observer_witness :
  earlyExitCode (this (onExit (Some 3) None midStart).2) = Some 3
  /\ state (this (onExit (Some 0) None serving).2) = stopped.
Proof.
  split.
  - apply (proj1 (proj2 (proj2 (exit_observer (Some 3) None midStart))));
      [reflexivity | reflexivity | lia].
  - apply (proj2 (proj2 (proj2 (exit_observer (Some 0) None serving)))).
    reflexivity.
Defined.

(** ** [start] when already started *)

Lemma startBody_already (spawnConfigOf : ProcessManager -> SpawnConfig)
    (deadlineOf : ProcessManager -> Z) (w : StartScript) (s : Machine) :
  state (this s) = running \/ state (this s) = starting ->
  startBody spawnConfigOf deadlineOf w s = (Normal (Some true), s).
Proof.
  intros H. unfold startBody; run.
  destruct H as [-> | ->]; reflexivity.
Qed.

(** C4: in state [running] or [starting], [start] returns [true] at once
    and the machine is exactly as before: same supervisor fields, nothing
    added to the trace (no notification, no [fetch], no [spawn]), clock
    untouched.  Both copies of [start] behave so. *)
Theorem start_when_started (node : Node) (w : StartScript) (s : Machine) :
  state (this s) = running \/ state (this s) = starting ->
  start node w s = (Normal (Some true), s)
  /\ Sibling.start node w s = (Normal (Some true), s).
Proof.
  intros H. unfold start, Sibling.start.
  split; apply startBody_already; exact H.
Qed.

Lemma start_when_started_witness :
  start bashHost (neverReady 3) serving = (Normal (Some true), serving)
  /\ Sibling.start bashHost (neverReady 3) serving = (Normal (Some true), serving).
Proof. apply (start_when_started bashHost (neverReady 3) serving). left. reflexivity. Defined.

(** ** [getUrl] *)

Lemma isLatin1_Forall (dir : jsstring) :
  isLatin1 dir = true <-> Forall (fun u => (u <= 255)%N) dir.
Proof.
  unfold isLatin1. rewrite forallb_forall, Forall_forall.
  split; intros H u Hu.
  - apply N.leb_le, H. by apply list_elem_of_In.
  - apply N.leb_le, H. by apply list_elem_of_In.
Qed.

Lemma getUrl_result (s : Machine) :
  getUrl s
  = if isLatin1 (projectDirectory (this s))
    then (Normal (urlOf (this s) (base64 (projectDirectory (this s)))), s)
    else (Throw InvalidCharacterError, s).
Proof.
  unfold getUrl, btoa, urlOf; run.
  destruct (isLatin1 _); cbn; [|reflexivity].
  by rewrite <- !app_assoc.
Qed.

(** C10: when every code unit of the project directory is at most U+00FF,
    [getUrl] returns [http://<hostname>:<port>/<base64 of the directory>]
    and changes nothing; when some code unit is above U+00FF it throws
    [InvalidCharacterError]; and such a directory exists (here the single
    code unit U+4E2D), so [getUrl] is not total. *)
Theorem getUrl_latin1_only (s : Machine) :
  (Forall (fun u => (u <= 255)%N) (projectDirectory (this s)) ->
   getUrl s
   = (Normal (lit "http://" ++ Types.hostname (settings (this s)) ++ lit ":"
                ++ numberToString (Types.port (settings (this s))) ++ lit "/"
                ++ base64 (projectDirectory (this s))), s))
  /\ (Exists (fun u => (255 < u)%N) (projectDirectory (this s)) ->
      getUrl s = (Throw InvalidCharacterError, s))
  /\ getUrl (boot (set_projectDirectory [20013%N] (this s)) (now s))
     = (Throw InvalidCharacterError,
        boot (set_projectDirectory [20013%N] (this s)) (now s)).
Proof.
  rewrite getUrl_result. split; [|split].
  - intros H. apply isLatin1_Forall in H. by rewrite H.
  - intros H. destruct (isLatin1 _) eqn:E; [|reflexivity].
    apply isLatin1_Forall in E. apply Exists_exists in H as (u & Hu & Hgt).
    rewrite Forall_forall in E. specialize (E u Hu). lia.
  - reflexivity.
Qed.

Lemma getUrl_latin1_only_witness :
  getUrl (boot (vaultManager 15000) 0)
  = (Normal (lit "http://127.0.0.1:14096/L3ZhdWx0"), boot (vaultManager 15000) 0).
Proof.
  apply (proj1 (getUrl_latin1_only (boot (vaultManager 15000) 0))).
  cbn. repeat constructor; lia.
Defined.

(** ** The health probe *)

Lemma handle_normal (ev : ProcEvent) (s : Machine) : (handle ev s).1 = Normal tt.
Proof.
  destruct s as [[p st le ec cf wd pd] tr t], ev as [code signal | code message];
    unfold handle, onExit, onError; run.
  - destruct st, code as [c|]; try case_bool_decide; reflexivity.
  - case_bool_decide; reflexivity.
Qed.

Lemma deliver_normal (evs : list ProcEvent) (s : Machine) :
  (deliver evs s).1 = Normal tt.
Proof.
  revert s. induction evs as [|ev rest IH]; intros s; [reflexivity|].
  cbn [deliver]. pose proof (handle_normal ev s) as H.
  destruct (handle ev s) as [r s'] eqn:E; cbn in H; subst r.
  rewrite (bind_normal _ _ _ _ _ E). apply IH.
Qed.

Lemma await_normal (a : Await) (s : Machine) : (await a s).1 = Normal tt.
Proof.
  unfold await. pose proof (deliver_normal (arrivals a) s) as H.
  destruct (deliver (arrivals a) s) as [r s'] eqn:E; cbn in H; subst r.
  rewrite (bind_normal _ _ _ _ _ E). reflexivity.
Qed.

(** C7: [checkServerHealth] always returns normally, whatever the request
    does and whatever events arrive meanwhile.  Its value is [false] when
    the request fails with a network error, is aborted by its timer, or is
    answered with a status outside 200..299; it is [true] only for an answer
    with a status in 200..299 (and then exactly when the URL could be
    built at all). *)
Theorem checkServerHealth_total (p : Probe) (s : Machine) :
  (checkServerHealth p s).1
  = Normal match outcome p with
           | Responded status =>
               bool_decide (200 <= status <= 299)
                 && isLatin1 (projectDirectory (this s))
           | NetworkError => false
           | TimedOut => false
           end.
Proof.
  unfold checkServerHealth, tryCatch.
  pose proof (getUrl_result s) as Hurl.
  destruct (isLatin1 (projectDirectory (this s))) eqn:Hl.
  - rewrite (bind_normal _ _ _ _ _ Hurl). unfold fetch.
    unfold mbind at 1 2. unfold M_bind at 1 2. unfold emit.
    match goal with |- context [(await (wait p) ≫= _) ?s1] =>
      pose proof (await_normal (wait p) s1) as Ha;
      destruct (await (wait p) s1) as [r2 s2] eqn:E2 end.
    cbn in Ha; subst r2.
    rewrite (bind_normal _ _ _ _ _ E2).
    destruct (outcome p) as [status| |]; try reflexivity.
    cbn. rewrite andb_true_r. f_equal. unfold responseOk.
    apply eq_true_iff_eq. rewrite andb_true_iff, bool_decide_eq_true. lia.
  - rewrite (bind_throw _ _ _ _ _ Hurl). cbn.
    destruct (outcome p); [by rewrite andb_false_r | done | done].
Qed.

(** ** The Unix environment setup *)

Lemma firstNvm_guarded (node : Node) (dirs : list jsstring) :
  Forall (Guarded node) (firstNvm node dirs).
Proof.
  induction dirs as [|d rest IH]; cbn [firstNvm]; [constructor|].
  destruct (existsSync node (join node [d; lit "nvm.sh"])) eqn:E; [|exact IH].
  constructor; [|constructor].
  exact (guarded_nvm node d E).
Qed.

Lemma sourceLine_guarded (node : Node) (path : jsstring) :
  Forall (Guarded node)
    (if existsSync node path then [sourceLine path] else []).
Proof.
  destruct (existsSync node path) eqn:E; constructor; [|constructor].
  by apply guarded_source.
Qed.

Lemma pathLine_guarded (node : Node) :
  let existing := filter (fun p => existsSync node p = true) brewPaths in
  Forall (Guarded node)
    (if bool_decide (0 < length existing)%nat then [pathLine existing] else []).
Proof.
  intros existing. case_bool_decide as Hlen; constructor; [|constructor].
  apply guarded_path.
  - intros Hnil. rewrite Hnil in Hlen. cbn in Hlen. lia.
  - apply Forall_forall. intros d Hd.
    apply list_elem_of_filter in Hd. exact Hd.
Qed.

(** C8: for every runtime (existence oracle, environment, [path.join]),
    home directory and shell kind, each part of the Unix setup is a
    [source] of a path that exists, with its stderr sent to [/dev/null];
    or the export of an nvm directory followed by such a [source] of the
    [nvm.sh] in it, which exists; or a [PATH] export that prepends a
    non-empty list of directories taken from the two package-manager
    directories, every one of which exists.  The setup string is these
    parts joined by [; ] and closed by [;], or empty when there is none. *)
Theorem unix_setup_guarded (node : Node) (home : jsstring) (isZsh : bool) :
  Forall (Guarded node) (unixEnvParts node home isZsh)
  /\ buildUnixEnvSetup node home isZsh
     = match unixEnvParts node home isZsh with
       | [] => []
       | parts => joinWith (lit "; ") parts ++ lit ";"
       end.
Proof.
  split.
  - unfold unixEnvParts. apply Forall_app. split; [|apply pathLine_guarded].
    destruct isZsh; [apply sourceLine_guarded|].
    apply Forall_app. split; [apply firstNvm_guarded | apply sourceLine_guarded].
  - unfold buildUnixEnvSetup.
    destruct (unixEnvParts node home isZsh); reflexivity.
Qed.

Example unix_setup_bash :
  buildUnixEnvSetup bashHost (lit "/home/u") false
  = lit "export NVM_DIR=" ++ dquote ++ lit "/home/u/.config/nvm" ++ dquote
      ++ lit "; source " ++ dquote ++ lit "/home/u/.config/nvm/nvm.sh" ++ dquote
      ++ lit " 2>/dev/null; source " ++ dquote ++ lit "/home/u/.bashrc" ++ dquote
      ++ lit " 2>/dev/null; export PATH=" ++ dquote ++ lit "/usr/local/bin:$PATH"
      ++ dquote ++ lit ";".
Proof. vm_compute. reflexivity. Qed.

Example unix_setup_zsh_without_profile :
  buildUnixEnvSetup bashHost (lit "/home/u") true
  = lit "export PATH=" ++ dquote ++ lit "/usr/local/bin:$PATH" ++ dquote ++ lit ";".
Proof. vm_compute. reflexivity. Qed.

(** ** Failure classification *)

Lemma classifyFailure_message (s : Machine) :
  (classifyFailure s).1 = Normal false
  /\ state (this (classifyFailure s).2) = error
  /\ lastError (this (classifyFailure s).2)
     = Some match earlyExitCode (this s) with
            | Some c => exitedUnexpectedly c
            | None => lit "Process exited before server became ready"
            end.
Proof.
  unfold classifyFailure.
  rewrite (bind_normal _ _ _ _ _ (stop_result s)).
  unfold exitedUnexpectedly. run.
  destruct (earlyExitCode (this s)); cbn; repeat split; reflexivity.
Qed.

(** C1: the first two cases are classified as stated, the third is not.
    Whatever the machine, the classification at the end of [start] ends in
    [error] with the exit-code message when an early exit code was captured
    and with "Process exited before server became ready" otherwise: the
    [stop] that precedes it has cleared the handle, so the timeout message
    is never chosen.  In the run below the process never exits and no
    probe succeeds; [start] gives up after 15005 ms and reports
    "Process exited before server became ready". *)
Theorem timeout_reported_as_exit :
  (forall s : Machine,
     lastError (this (classifyFailure s).2)
     = Some match earlyExitCode (this s) with
            | Some c =>
                lit "Process exited unexpectedly (exit code "
                  ++ numberToString c ++ lit ")"
            | None => lit "Process exited before server became ready"
            end)
  /\ (let run := start bashHost (neverReady 30) (boot (vaultManager 15000) 0) in
      run.1 = Normal (Some false)
      /\ state (this run.2) = error
      /\ lastError (this run.2)
         = Some (lit "Process exited before server became ready")
      /\ now run.2 = 15005
      /\ signalsSent (trace run.2) = [({| pid := 4242 |}, SIGTERM)]).
Proof.
  split.
  - intros s. apply classifyFailure_message.
  - vm_compute. repeat split; reflexivity.
Qed.

(** The two cases of C1 that the code does classify as stated. *)
Example early_exit_code_reported :
  let run := start bashHost (oneTurn (eventful [ExitEvent (Some 3) None] NetworkError))
               (boot (vaultManager 15000) 0) in
  run.1 = Normal (Some false)
  /\ state (this run.2) = error
  /\ lastError (this run.2) = Some (lit "Process exited unexpectedly (exit code 3)")
  /\ signalsSent (trace run.2) = [].
Proof. vm_compute. repeat split; reflexivity. Qed.

Example killed_before_ready_reported :
  let run := start bashHost
               (oneTurn (eventful [ExitEvent None (Some (lit "SIGKILL"))] NetworkError))
               (boot (vaultManager 15000) 0) in
  run.1 = Normal (Some false)
  /\ state (this run.2) = error
  /\ lastError (this run.2) = Some (lit "Process exited before server became ready")
  /\ signalsSent (trace run.2) = [].
Proof. vm_compute. repeat split; reflexivity. Qed.

(** ** The polling deadline *)

Lemma blind_ret {A} t (a : A) : blind t (mret a).
Proof. intros s. reflexivity. Qed.

Lemma blind_throw {A} t (e : Exn) : blind t (@throw A e).
Proof. intros s. reflexivity. Qed.

Lemma blind_bind {A B} t (m : M A) (f : A -> M B) :
  blind t m -> (forall a, blind t (f a)) -> blind t (m ≫= f).
Proof.
  intros Hm Hf s. unfold mbind, M_bind. rewrite (Hm s).
  destruct (m s) as [[a|e] s']; cbn; [apply Hf | reflexivity].
Qed.

(** Reading [this] is harmless as long as what follows does not look at
    [startupTimeout]. *)
Lemma blind_getThis {B} t (f : ProcessManager -> M B) :
  (forall pm, blind t (f pm)) ->
  (forall pm, f (retimeManager t pm) = f pm) ->
  blind t (getThis ≫= f).
Proof.
  intros Hf Heq s. unfold mbind, M_bind, getThis. cbn.
  rewrite Heq. apply Hf.
Qed.

Lemma blind_tryCatch {A} t (body : M A) (handler : Exn -> M A) :
  blind t body -> (forall e, blind t (handler e)) -> blind t (tryCatch body handler).
Proof.
  intros Hb Hh s. unfold tryCatch. rewrite (Hb s).
  destruct (body s) as [[a|e] s']; cbn; [reflexivity | apply Hh].
Qed.

Lemma blind_modify t (f : ProcessManager -> ProcessManager) :
  (forall pm, f (retimeManager t pm) = retimeManager t (f pm)) ->
  blind t (modifyThis f).
Proof. intros Hf s. unfold modifyThis, retime. cbn. by rewrite Hf. Qed.

Lemma blind_emit t (e : Effect) : blind t (emit e).
Proof. intros s. reflexivity. Qed.

Lemma blind_elapse t (ms : Z) : blind t (elapse ms).
Proof. intros s. reflexivity. Qed.

Lemma blind_dateNow {B} t (f : Z -> M B) :
  (forall z, blind t (f z)) -> blind t (dateNow ≫= f).
Proof. intros Hf s. unfold mbind, M_bind, dateNow. cbn. apply Hf. Qed.

Create HintDb blind.

#[local] Hint Resolve blind_ret blind_throw blind_emit blind_elapse : blind.

Ltac blind_step :=
  match goal with
  | |- blind _ (getThis ≫= _) => apply blind_getThis; [intros ? | intros ?; reflexivity]
  | |- blind _ (dateNow ≫= _) => apply blind_dateNow; intros ?
  | |- blind _ (_ ≫= _) => apply blind_bind; [|intros ?]
  | |- blind _ (tryCatch _ _) => apply blind_tryCatch; [|intros ?]
  | |- blind _ (modifyThis _) => apply blind_modify; intros ?; reflexivity
  | |- blind _ (setState _) => unfold setState
  | |- blind _ (setError _) => unfold setError
  | |- blind _ skip => apply blind_ret
  | |- blind _ (liftExn ?r) => destruct r; cbn [liftExn]
  | |- blind _ (if ?b then _ else _) => destruct b
  | |- blind _ (match ?x with _ => _ end) => destruct x
  | |- blind _ _ => solve [eauto with blind]
  end.

Lemma blind_stop t : blind t stop.
Proof. unfold stop. repeat blind_step. Qed.

Lemma blind_handle t ev : blind t (handle ev).
Proof. destruct ev; unfold handle, onExit, onError; repeat blind_step. Qed.

Lemma blind_deliver t evs : blind t (deliver evs).
Proof.
  induction evs as [|ev rest IH]; cbn [deliver]; [apply blind_ret|].
  apply blind_bind; [apply blind_handle | intros _; exact IH].
Qed.

#[local] Hint Resolve blind_stop blind_handle blind_deliver : blind.

Lemma blind_await t a : blind t (await a).
Proof. unfold await. repeat blind_step. Qed.

Lemma blind_getUrl t : blind t getUrl.
Proof. unfold getUrl. repeat blind_step. Qed.

#[local] Hint Resolve blind_await blind_getUrl : blind.

Lemma blind_checkServerHealth t p : blind t (checkServerHealth p).
Proof. unfold checkServerHealth, fetch. repeat blind_step. Qed.

#[local] Hint Resolve blind_checkServerHealth : blind.

Lemma blind_pollFrom t startTime timeoutMs ticks :
  blind t (pollFrom startTime timeoutMs ticks).
Proof.
  induction ticks as [|tk rest IH]; cbn [pollFrom]; repeat blind_step.
Qed.

#[local] Hint Resolve blind_pollFrom : blind.

Lemma blind_classifyFailure t : blind t classifyFailure.
Proof. unfold classifyFailure. repeat blind_step. Qed.

#[local] Hint Resolve blind_classifyFailure : blind.

(** [start] of [src/ProcessManager.ts] never looks at [startupTimeout]. *)
Lemma blind_start t node w : blind t (start node w).
Proof.
  unfold start, startBody, waitForServerOrExit, shellSpawnConfig,
    buildSpawnConfig, baseCmd.
  repeat blind_step.
Qed.

Lemma refused_probe (ms : Z) (s : Machine) :
  isLatin1 (projectDirectory (this s)) = true ->
  checkServerHealth (refused ms) s
  = (Normal false,
     {| this := this s;
        trace := trace s ++ [Fetch (urlOf (this s) (base64 (projectDirectory (this s)))
                                      ++ lit "/global/health") 2000];
        now := now s + ms |}).
Proof.
  intros Hl. unfold checkServerHealth, tryCatch.
  pose proof (getUrl_result s) as Hurl. rewrite Hl in Hurl.
  rewrite (bind_normal _ _ _ _ _ Hurl). reflexivity.
Qed.

Lemma pollFrom_idle_turn (startTime timeoutMs : Z) (rest : list Tick) (s : Machine) :
  is_Some (process (this s)) ->
  isLatin1 (projectDirectory (this s)) = true ->
  now s - startTime < timeoutMs ->
  pollFrom startTime timeoutMs (idle :: rest) s
  = pollFrom startTime timeoutMs rest (afterIdle s).
Proof.
  intros [c Hp] Hl Hlt. cbn [pollFrom].
  rewrite (bind_normal dateNow _ s (now s) s eq_refl).
  rewrite bool_decide_eq_true_2 by exact Hlt.
  rewrite (bind_normal getThis _ s (this s) s eq_refl).
  rewrite Hp.
  rewrite (bind_normal _ _ _ _ _ (refused_probe 100 s Hl)).
  reflexivity.
Qed.

Lemma pollFrom_idle (startTime timeoutMs : Z) (n : nat) :
  forall (k : nat) (s : Machine),
    is_Some (process (this s)) ->
    isLatin1 (projectDirectory (this s)) = true ->
    now s = startTime + 600 * Z.of_nat k ->
    (pollFrom startTime timeoutMs (replicate n idle) s).1
    = Normal (if bool_decide (timeoutMs <= 600 * Z.of_nat (k + n)) then Some false else None)
    /\ this (pollFrom startTime timeoutMs (replicate n idle) s).2 = this s.
Proof.
  induction n as [|n IH]; intros k s Hp Hl Hnow.
  - cbn [replicate pollFrom].
    rewrite (bind_normal dateNow _ s (now s) s eq_refl).
    case_bool_decide as Hlt.
    + rewrite (bind_normal getThis _ s (this s) s eq_refl).
      destruct Hp as [c ->]. cbn. split; [|reflexivity].
      case_bool_decide; [lia | done].
    + cbn. split; [|reflexivity]. case_bool_decide; [done | lia].
  - destruct (decide (now s - startTime < timeoutMs)) as [Hlt|Hge].
    + cbn [replicate]. rewrite pollFrom_idle_turn by done.
      destruct (IH (S k) (afterIdle s)) as [IH1 IH2]; [done | done | cbn; lia |].
      rewrite IH1, IH2. split; [|reflexivity].
      f_equal. repeat case_bool_decide; try done; lia.
    + cbn [replicate pollFrom].
      rewrite (bind_normal dateNow _ s (now s) s eq_refl).
      rewrite bool_decide_eq_false_2 by exact Hge.
      cbn. split; [|reflexivity]. case_bool_decide; [done | lia].
Qed.

(** A run in which the process lives on and nothing answers: [start]
    fails once [600 * turns] reaches the deadline it polls against, and is
    still pending before. *)
Lemma startBody_neverReady (spawnConfigOf : ProcessManager -> SpawnConfig)
    (deadlineOf : ProcessManager -> Z) (d : Z) (n : nat) (s : Machine) :
  state (this s) = stopped \/ state (this s) = error ->
  isLatin1 (projectDirectory (this s)) = true ->
  projectDirectory (this s) <> [] ->
  (forall pm, settings pm = settings (this s) -> deadlineOf pm = d) ->
  (startBody spawnConfigOf deadlineOf (neverReady n) s).1
  = Normal (if bool_decide (d <= 600 * Z.of_nat n) then Some false else None).
Proof.
  intros Hst Hl Hdir Hd. unfold startBody.
  rewrite (bind_normal getThis _ s (this s) s eq_refl).
  replace (bool_decide (state (this s) = running) || bool_decide (state (this s) = starting))
    with false by (destruct Hst as [-> | ->]; reflexivity).
  erewrite bind_normal by reflexivity.
  erewrite bind_normal by reflexivity.
  erewrite bind_normal by reflexivity.
  erewrite bind_normal by reflexivity.
  cbn [this projectDirectory set_earlyExitCode set_lastError set_state].
  destruct (projectDirectory (this s)) as [|u dir] eqn:Hpd; [done|].
  cbn [truthy negb].
  erewrite bind_normal; cycle 1.
  { apply refused_probe. cbn. by rewrite Hpd. }
  cbn [precheck neverReady].
  erewrite bind_normal by reflexivity.
  erewrite bind_normal by reflexivity.
  erewrite bind_normal by reflexivity.
  erewrite bind_normal by reflexivity.
  rewrite Hd by reflexivity.
  unfold waitForServerOrExit. cbn [ticks].
  cbn [this trace now].
  match goal with |- ((_ ≫= _) ?s3).1 = _ =>
    destruct (pollFrom_idle (now s3) d n 0 s3) as [Hr Hthis];
      [by eexists | cbn; by rewrite Hpd | cbn; lia |];
    destruct (pollFrom (now s3) d (replicate n idle) s3) as [r s4] eqn:Hpoll
  end.
  cbn in Hr, Hthis. subst r.
  erewrite (bind_normal (dateNow ≫= _));
    [|erewrite (bind_normal dateNow) by reflexivity; exact Hpoll].
  case_bool_decide; [|reflexivity].
  rewrite (bind_normal getThis _ s4 (this s4) s4 eq_refl).
  rewrite Hthis. cbn [state set_process set_state set_earlyExitCode set_lastError].
  rewrite bool_decide_eq_false_2 by discriminate.
  destruct (classifyFailure_message s4) as (Hc & _).
  destruct (classifyFailure s4) as [r5 s5] eqn:Hcf. cbn in Hc. subst r5.
  erewrite bind_normal by exact Hcf. reflexivity.
Qed.

(** C2: [src/ProcessManager.ts] does not poll against the configured
    timeout.  Its [start] runs the same way whatever [startupTimeout] the
    settings hold.  On the runs where the process lives on and no probe
    succeeds, 600 ms a turn, it fails exactly when 15000 ms have gone by,
    for every configured timeout [t], while the sibling copy, which passes
    [settings.startupTimeout], fails exactly when [t] ms have gone by.
    With [startupTimeout = 1000] and three turns: [start] is still polling
    at 1805 ms, the sibling gave up at 1205 ms. *)
Theorem start_polls_for_15000 :
  (forall node w s t,
     start node w (retime t s) = ((start node w s).1, retime t (start node w s).2))
  /\ (forall (t : Z) (n : nat),
        (start bashHost (neverReady n) (boot (vaultManager t) 0)).1
        = Normal (if bool_decide (15000 <= 600 * Z.of_nat n) then Some false else None))
  /\ (forall (t : Z) (n : nat),
        (Sibling.start bashHost (neverReady n) (boot (vaultManager t) 0)).1
        = Normal (if bool_decide (t <= 600 * Z.of_nat n) then Some false else None))
  /\ (let run := start bashHost (neverReady 3) (boot (vaultManager 1000) 0) in
      run.1 = Normal None /\ state (this run.2) = starting /\ now run.2 = 1805)
  /\ (let run := Sibling.start bashHost (neverReady 3) (boot (vaultManager 1000) 0) in
      run.1 = Normal (Some false) /\ now run.2 = 1205).
Proof.
  split; [|split; [|split; [|split]]].
  - intros node w s t. apply blind_start.
  - intros t n. unfold start.
    apply startBody_neverReady; [by left | reflexivity | discriminate | done].
  - intros t n. unfold Sibling.start.
    apply startBody_neverReady; [by left | reflexivity | discriminate |].
    intros pm ->. reflexivity.
  - vm_compute. repeat split; reflexivity.
  - vm_compute. split; reflexivity.
Qed.

(** ** The error invariant *)

Lemma hoare_bind {A B} (P R Q : Machine -> Prop) (m : M A) (f : A -> M B) :
  hoare P m R -> (forall a, hoare R (f a) Q) -> (forall s, R s -> Q s) ->
  hoare P (m ≫= f) Q.
Proof.
  intros Hm Hf HRQ s HP. specialize (Hm s HP).
  unfold mbind, M_bind. destruct (m s) as [[a|e] s']; cbn in *.
  - by apply Hf.
  - by apply HRQ.
Qed.

Lemma keeps_bind {A B} (m : M A) (f : A -> M B) :
  keeps m -> (forall a, keeps (f a)) -> keeps (m ≫= f).
Proof. intros Hm Hf. by apply hoare_bind with (R := ErrorHasMessage). Qed.

Lemma keeps_ret {A} (a : A) : keeps (mret a).
Proof. intros s H. exact H. Qed.

Lemma keeps_throw {A} (e : Exn) : keeps (@throw A e).
Proof. intros s H. exact H. Qed.

Lemma keeps_tryCatch {A} (body : M A) (handler : Exn -> M A) :
  keeps body -> (forall e, keeps (handler e)) -> keeps (tryCatch body handler).
Proof.
  intros Hb Hh s H. specialize (Hb s H). unfold tryCatch.
  destruct (body s) as [[a|e] s']; cbn in *; [exact Hb | by apply Hh].
Qed.

Lemma keeps_getThis : keeps getThis.
Proof. intros s H. exact H. Qed.

Lemma keeps_dateNow : keeps dateNow.
Proof. intros s H. exact H. Qed.

Lemma keeps_emit (e : Effect) : keeps (emit e).
Proof. intros s H. exact H. Qed.

Lemma keeps_elapse (ms : Z) : keeps (elapse ms).
Proof. intros s H. exact H. Qed.

Lemma keeps_modify (f : ProcessManager -> ProcessManager) :
  (forall pm, state (f pm) = state pm /\ lastError (f pm) = lastError pm) ->
  keeps (modifyThis f).
Proof.
  intros Hf s H Herr. cbn in *. destruct (Hf (this s)) as [Hst Hle].
  rewrite Hst in Herr. destruct (H Herr) as (m & Hm & Hne).
  exists m. by rewrite Hle.
Qed.

Lemma setState_not_error (st : ProcessState) (P : Machine -> Prop) :
  st <> error -> hoare P (setState st) ErrorHasMessage.
Proof. intros Hst s _ Herr. cbn in Herr. done. Qed.

Lemma setError_message (message : jsstring) (P : Machine -> Prop) :
  message <> [] -> hoare P (setError message) ErrorHasMessage.
Proof. intros Hne s _ _. exists message. split; [reflexivity | exact Hne]. Qed.

Create HintDb keeps.

#[local] Hint Resolve keeps_ret keeps_throw keeps_getThis keeps_dateNow
  keeps_emit keeps_elapse : keeps.

Ltac keeps_modify := apply keeps_modify; intros ?; split; reflexivity.

Ltac keeps_step :=
  match goal with
  | |- keeps (_ ≫= _) => apply keeps_bind; [|intros ?]
  | |- keeps (tryCatch _ _) => apply keeps_tryCatch; [|intros ?]
  | |- keeps (modifyThis _) => keeps_modify
  | |- keeps (setState _) => apply setState_not_error; discriminate
  | |- keeps (setError _) => apply setError_message; discriminate
  | |- keeps skip => apply keeps_ret
  | |- keeps (liftExn ?r) => destruct r; cbn [liftExn]
  | |- keeps (if ?b then _ else _) => destruct b
  | |- keeps (match ?x with _ => _ end) => destruct x
  | |- keeps _ => solve [eauto with keeps]
  end.

Lemma keeps_stop : keeps stop.
Proof. unfold stop. repeat keeps_step. Qed.

Lemma keeps_onExit code signal : keeps (onExit code signal).
Proof. unfold onExit. repeat keeps_step. Qed.

Lemma keeps_onError code message : keeps (onError code message).
Proof. unfold onError. repeat keeps_step. Qed.

Lemma keeps_handle ev : keeps (handle ev).
Proof. destruct ev; [apply keeps_onExit | apply keeps_onError]. Qed.

Lemma keeps_deliver evs : keeps (deliver evs).
Proof.
  induction evs as [|ev rest IH]; cbn [deliver]; [apply keeps_ret|].
  apply keeps_bind; [apply keeps_handle | intros _; exact IH].
Qed.

#[local] Hint Resolve keeps_stop keeps_handle keeps_deliver : keeps.

Lemma keeps_await a : keeps (await a).
Proof. unfold await. repeat keeps_step. Qed.

Lemma keeps_getUrl : keeps getUrl.
Proof. unfold getUrl. repeat keeps_step. Qed.

#[local] Hint Resolve keeps_await keeps_getUrl : keeps.

Lemma keeps_fetch url p : keeps (fetch url p).
Proof. unfold fetch. repeat keeps_step. Qed.

#[local] Hint Resolve keeps_fetch : keeps.

Lemma keeps_checkServerHealth p : keeps (checkServerHealth p).
Proof. unfold checkServerHealth. repeat keeps_step. Qed.

#[local] Hint Resolve keeps_checkServerHealth : keeps.

Lemma keeps_pollFrom startTime timeoutMs ticks :
  keeps (pollFrom startTime timeoutMs ticks).
Proof.
  induction ticks as [|tk rest IH]; cbn [pollFrom]; repeat keeps_step.
Qed.

#[local] Hint Resolve keeps_pollFrom : keeps.

Lemma keeps_waitForServerOrExit timeoutMs ticks :
  keeps (waitForServerOrExit timeoutMs ticks).
Proof. unfold waitForServerOrExit. repeat keeps_step. Qed.

Lemma keeps_classifyFailure : keeps classifyFailure.
Proof. unfold classifyFailure. repeat keeps_step. Qed.

#[local] Hint Resolve keeps_waitForServerOrExit keeps_classifyFailure : keeps.

Lemma keeps_startBody spawnConfigOf deadlineOf w :
  keeps (startBody spawnConfigOf deadlineOf w).
Proof.
  unfold startBody. apply keeps_bind; [apply keeps_getThis|]. intros pm.
  destruct (_ || _); [apply keeps_ret|].
  apply hoare_bind with (R := fun s => state (this s) = starting).
  - intros s _. reflexivity.
  - intros _.
    apply hoare_bind with (R := fun s => state (this s) = starting);
      [intros s H; exact H | | intros s H He; congruence].
    intros _.
    apply hoare_bind with (R := ErrorHasMessage);
      [intros s H He; cbn in *; congruence | | done].
    intros _. match goal with |- hoare _ ?m _ => change (keeps m) end.
    repeat keeps_step.
  - intros s H He. congruence.
Qed.

Lemma perform_keeps node c : forall s, ErrorHasMessage s -> ErrorHasMessage (perform node c s).
Proof.
  destruct c; cbn [perform].
  - exact (keeps_startBody (shellSpawnConfig node) (fun _ => 15000) w).
  - exact keeps_stop.
  - change (keeps getState). unfold getState. repeat keeps_step.
  - change (keeps getLastError). unfold getLastError. repeat keeps_step.
  - exact keeps_getUrl.
  - change (keeps (updateSettings s)). unfold updateSettings. keeps_step.
  - change (keeps (updateProjectDirectory d)). unfold updateProjectDirectory. keeps_step.
  - exact (keeps_handle ev).
  - change (keeps (forceKill proc exitCode signalCode)). unfold forceKill.
    repeat keeps_step.
Qed.

(** C3, as the code has it: in every machine reachable from a fresh
    supervisor by the public operations, process events and the deferred
    kill, state [error] comes with a non-empty [lastError].  The converse
    is not an invariant: [stop] leaves [lastError] as it is, and only the
    next [start] clears it. *)
Theorem error_has_message (node : Node) (s : Machine) :
  Reachable node s -> state (this s) = error -> lastErrorNonEmpty (this s).
Proof.
  induction 1 as [st wd pd t0 | s c Hs IH].
  - cbn. discriminate.
  - by apply perform_keeps.
Qed.

Lemma error_has_message_witness :
  lastErrorNonEmpty
    (this (perform bashHost (CallStart alreadyUp)
             (boot (new Types.DEFAULT_SETTINGS (lit "/vault/.obsidian") []) 0))).
Proof.
  apply (error_has_message bashHost).
  - apply reach_call, reach_new.
  - vm_compute. reflexivity.
Defined.

(** A fresh supervisor with no project directory: [start] fails with the
    configuration error, and the [stop] that follows leaves the state
    [stopped] with that message still in [lastError]. *)
Lemma lastError_survives_stop :
  ~ (forall node s, Reachable node s ->
       (lastErrorNonEmpty (this s) <-> state (this s) = error)).
Proof.
  intros H.
  pose (s0 := boot (new Types.DEFAULT_SETTINGS (lit "/vault/.obsidian") []) 0).
  assert (Hr : Reachable bashHost
                 (perform bashHost CallStop (perform bashHost (CallStart alreadyUp) s0)))
    by (do 2 apply reach_call; apply reach_new).
  destruct (H _ _ Hr) as [Hto _].
  assert (Hst : state (this (perform bashHost CallStop
                               (perform bashHost (CallStart alreadyUp) s0))) = stopped)
    by (vm_compute; reflexivity).
  rewrite Hst in Hto. enough (stopped = error) by discriminate.
  apply Hto. exists (lit "Project directory (vault) not configured").
  split; [vm_compute; reflexivity | discriminate].
Qed.

(** The same with a configured vault: the executable is missing, the error
    observer fires during the first probe of the polling loop, [start]
    returns [false] in state [error]; after [stop] the state is [stopped]
    and the message is still there. *)
Example lastError_after_missing_executable :
  let failed := start bashHost
                  (oneTurn (eventful [ErrorEvent (Some (lit "ENOENT"))
                                        (lit "spawn opencode ENOENT")]
                                     NetworkError))
                  (boot (vaultManager 15000) 0) in
  failed.1 = Normal (Some false)
  /\ state (this failed.2) = error
  /\ lastError (this failed.2) = Some (lit "Executable not found at 'opencode'")
  /\ state (this (stop failed.2).2) = stopped
  /\ lastError (this (stop failed.2).2) = Some (lit "Executable not found at 'opencode'").
Proof. vm_compute. repeat split; reflexivity. Qed.

(** Nor is [stopped] the only other state with a message: when the error
    observer fires during a probe that is answered, [start] goes on to
    [running] and the message stays. *)
Example lastError_while_running :
  let run := start bashHost
               (oneTurn (eventful [ErrorEvent (Some (lit "ENOENT"))
                                     (lit "spawn opencode ENOENT")]
                                  (Responded 200)))
               (boot (vaultManager 15000) 0) in
  run.1 = Normal (Some true)
  /\ state (this run.2) = running
  /\ lastError (this run.2) = Some (lit "Executable not found at 'opencode'").
Proof. vm_compute. repeat split; reflexivity. Qed.

(** * Further properties *)

(** ** Reasoning rules *)

Lemma total_ret {A} (a : A) : total (mret a).
Proof. intros s. by exists a. Qed.

Lemma total_bind {A B} (m : M A) (f : A -> M B) :
  total m -> (forall a, total (f a)) -> total (m ≫= f).
Proof.
  intros Hm Hf s. destruct (Hm s) as [a Ha].
  destruct (m s) as [r s'] eqn:E. cbn in Ha. subst r.
  rewrite (bind_normal _ _ _ _ _ E). apply Hf.
Qed.

Lemma total_tryCatch {A} (body : M A) (handler : Exn -> M A) :
  (forall e, total (handler e)) -> total (tryCatch body handler).
Proof.
  intros Hh s. unfold tryCatch. destruct (body s) as [[a|e] s']; [by exists a | apply Hh].
Qed.

Lemma total_getThis : total getThis.
Proof. intros s. by eexists. Qed.

Lemma total_dateNow : total dateNow.
Proof. intros s. by eexists. Qed.

Lemma total_modifyThis f : total (modifyThis f).
Proof. intros s. by eexists. Qed.

Lemma total_emit e : total (emit e).
Proof. intros s. by eexists. Qed.

Lemma total_elapse ms : total (elapse ms).
Proof. intros s. by eexists. Qed.

Create HintDb total.

#[local] Hint Resolve total_ret total_getThis total_dateNow total_modifyThis
  total_emit total_elapse : total.

Ltac total_step :=
  match goal with
  | |- total (_ ≫= _) => apply total_bind; [|intros ?]
  | |- total (tryCatch _ _) => apply total_tryCatch; intros ?
  | |- total (setState _) => unfold setState
  | |- total (setError _) => unfold setError
  | |- total skip => apply total_ret
  | |- total (if ?b then _ else _) => destruct b
  | |- total (match ?x with _ => _ end) => destruct x
  | |- total _ => solve [eauto with total]
  end.

Lemma total_stop : total stop.
Proof. unfold stop. repeat total_step. Qed.

Lemma total_handle ev : total (handle ev).
Proof. destruct ev; unfold handle, onExit, onError; repeat total_step. Qed.

Lemma total_deliver evs : total (deliver evs).
Proof.
  induction evs as [|ev rest IH]; cbn [deliver]; [apply total_ret|].
  apply total_bind; [apply total_handle | intros _; exact IH].
Qed.

#[local] Hint Resolve total_stop total_handle total_deliver : total.

Lemma total_await a : total (await a).
Proof. unfold await. repeat total_step. Qed.

#[local] Hint Resolve total_await : total.

Lemma total_checkServerHealth p : total (checkServerHealth p).
Proof. unfold checkServerHealth. repeat total_step. Qed.

#[local] Hint Resolve total_checkServerHealth : total.

Lemma total_pollFrom startTime timeoutMs ticks :
  total (pollFrom startTime timeoutMs ticks).
Proof.
  induction ticks as [|tk rest IH]; cbn [pollFrom]; unfold sleep; repeat total_step.
Qed.

#[local] Hint Resolve total_pollFrom : total.

Lemma total_waitForServerOrExit timeoutMs ticks :
  total (waitForServerOrExit timeoutMs ticks).
Proof. unfold waitForServerOrExit. repeat total_step. Qed.

Lemma total_classifyFailure : total classifyFailure.
Proof. unfold classifyFailure. repeat total_step. Qed.

#[local] Hint Resolve total_waitForServerOrExit total_classifyFailure : total.

Lemma total_startBody spawnConfigOf deadlineOf w :
  total (startBody spawnConfigOf deadlineOf w).
Proof. unfold startBody. repeat total_step. Qed.

Lemma preserves_bind {A B} (I : Machine -> Prop) (m : M A) (f : A -> M B) :
  preserves I m -> (forall a, preserves I (f a)) -> preserves I (m ≫= f).
Proof. intros Hm Hf. by apply hoare_bind with (R := I). Qed.

Lemma preserves_ret {A} (I : Machine -> Prop) (a : A) : preserves I (mret a).
Proof. intros s H. exact H. Qed.

Lemma preserves_throw {A} (I : Machine -> Prop) (e : Exn) : preserves I (@throw A e).
Proof. intros s H. exact H. Qed.

Lemma preserves_tryCatch {A} (I : Machine -> Prop) (body : M A) (handler : Exn -> M A) :
  preserves I body -> (forall e, preserves I (handler e)) ->
  preserves I (tryCatch body handler).
Proof.
  intros Hb Hh s H. specialize (Hb s H). unfold tryCatch.
  destruct (body s) as [[a|e] s']; cbn in *; [exact Hb | by apply Hh].
Qed.

Lemma preserves_getThis (I : Machine -> Prop) : preserves I getThis.
Proof. intros s H. exact H. Qed.

Lemma preserves_dateNow (I : Machine -> Prop) : preserves I dateNow.
Proof. intros s H. exact H. Qed.

Create HintDb preserves.

#[local] Hint Resolve preserves_ret preserves_throw preserves_getThis
  preserves_dateNow : preserves.

Ltac preserves_step :=
  match goal with
  | |- preserves _ (_ ≫= _) => apply preserves_bind; [|intros ?]
  | |- preserves _ (tryCatch _ _) => apply preserves_tryCatch; [|intros ?]
  | |- preserves _ skip => apply preserves_ret
  | |- preserves _ (liftExn ?r) => destruct r; cbn [liftExn]
  | |- preserves _ (if ?b then _ else _) => destruct b
  | |- preserves _ (match ?x with _ => _ end) => destruct x
  | |- preserves _ _ => solve [eauto with preserves]
  end.

(** What a property of machines must survive for the handlers, the probe,
    the polling loop and the failure classification to keep it. *)
Section Frame.

Context (I : Machine -> Prop).
Hypothesis I_elapse : forall ms, preserves I (elapse ms).
Hypothesis I_fetch : forall url ms, preserves I (emit (Fetch url ms)).
Hypothesis I_clear : preserves I (modifyThis (set_process None)).
Hypothesis I_code : forall c, preserves I (modifyThis (set_earlyExitCode c)).
Hypothesis I_stopped : preserves I (setState stopped).
Hypothesis I_error : forall message, preserves I (setError message).
Hypothesis I_stop : preserves I stop.

#[local] Hint Resolve I_elapse I_fetch I_clear I_code I_stopped I_error I_stop : preserves.

Lemma preserves_handle ev : preserves I (handle ev).
Proof. destruct ev; unfold handle, onExit, onError; repeat preserves_step. Qed.

Lemma preserves_deliver evs : preserves I (deliver evs).
Proof.
  induction evs as [|ev rest IH]; cbn [deliver]; [apply preserves_ret|].
  apply preserves_bind; [apply preserves_handle | intros _; exact IH].
Qed.

#[local] Hint Resolve preserves_handle preserves_deliver : preserves.

Lemma preserves_await a : preserves I (await a).
Proof. unfold await. repeat preserves_step. Qed.

Lemma preserves_getUrl : preserves I getUrl.
Proof. unfold getUrl. repeat preserves_step. Qed.

#[local] Hint Resolve preserves_await preserves_getUrl : preserves.

Lemma preserves_checkServerHealth p : preserves I (checkServerHealth p).
Proof. unfold checkServerHealth, fetch. repeat preserves_step. Qed.

#[local] Hint Resolve preserves_checkServerHealth : preserves.

Lemma preserves_pollFrom startTime timeoutMs ticks :
  preserves I (pollFrom startTime timeoutMs ticks).
Proof.
  induction ticks as [|tk rest IH]; cbn [pollFrom]; unfold sleep;
    repeat preserves_step.
Qed.

#[local] Hint Resolve preserves_pollFrom : preserves.

Lemma preserves_waitForServerOrExit timeoutMs ticks :
  preserves I (waitForServerOrExit timeoutMs ticks).
Proof. unfold waitForServerOrExit. repeat preserves_step. Qed.

Lemma preserves_classifyFailure : preserves I classifyFailure.
Proof. unfold classifyFailure. repeat preserves_step. Qed.

End Frame.

Lemma ensures_bind {A B} (P : Machine -> Prop) (R : A -> Machine -> Prop)
    (Q : B -> Machine -> Prop) (m : M A) (f : A -> M B) :
  ensures P m R -> (forall a, ensures (R a) (f a) Q) -> ensures P (m ≫= f) Q.
Proof.
  intros Hm Hf s HP. destruct (Hm s HP) as (a & Ha & HR).
  destruct (m s) as [r s'] eqn:E. cbn in Ha, HR. subst r.
  rewrite (bind_normal _ _ _ _ _ E). by apply Hf.
Qed.

Lemma ensures_ret {A} (P : Machine -> Prop) (Q : A -> Machine -> Prop) (a : A) :
  (forall s, P s -> Q a s) -> ensures P (mret a) Q.
Proof. intros H s HP. exists a. split; [reflexivity | by apply H]. Qed.

Lemma ensures_getThis {B} (P : Machine -> Prop) (Q : B -> Machine -> Prop)
    (f : ProcessManager -> M B) :
  (forall pm, ensures (fun s => P s /\ this s = pm) (f pm) Q) ->
  ensures P (getThis ≫= f) Q.
Proof.
  intros Hf s HP. rewrite (bind_normal getThis f s (this s) s eq_refl).
  by apply (Hf (this s)).
Qed.

Lemma ensures_weaken {A} (P P' : Machine -> Prop) (Q : A -> Machine -> Prop) (m : M A) :
  (forall s, P' s -> P s) -> ensures P m Q -> ensures P' m Q.
Proof. intros HP Hm s H. apply Hm, HP, H. Qed.

Lemma ensures_post {A} (P : Machine -> Prop) (Q Q' : A -> Machine -> Prop) (m : M A) :
  (forall a s, Q a s -> Q' a s) -> ensures P m Q -> ensures P m Q'.
Proof.
  intros HQ Hm s H. destruct (Hm s H) as (a & Ha & Hq). exists a. split; [done | by apply HQ].
Qed.

Lemma ensures_preserved {A} (I : Machine -> Prop) (m : M A) :
  preserves I m -> total m -> ensures I m (fun _ => I).
Proof.
  intros Hp Ht s H. destruct (Ht s) as [a Ha]. exists a. split; [done | by apply Hp].
Qed.

Lemma ensures_dateNow {B} (P : Machine -> Prop) (Q : B -> Machine -> Prop)
    (f : Z -> M B) :
  (forall t, ensures P (f t) Q) -> ensures P (dateNow ≫= f) Q.
Proof.
  intros Hf s HP. rewrite (bind_normal dateNow f s (now s) s eq_refl). by apply Hf.
Qed.

(** ** What [start] returns and leaves behind *)

Lemma ensures_setError (P : Machine -> Prop) (message : jsstring) :
  message <> [] ->
  ensures P (setError message)
    (fun r s => r = false /\ state (this s) = error /\ lastErrorNonEmpty (this s)).
Proof.
  intros Hne s _. exists false. repeat split. by exists message.
Qed.

Lemma ensures_setState (P : Machine -> Prop) (st : ProcessState) :
  ensures P (setState st) (fun _ s => state (this s) = st).
Proof. intros s _. by exists tt. Qed.

Lemma ensures_classifyFailure (P : Machine -> Prop) :
  ensures P classifyFailure
    (fun r s => r = false /\ state (this s) = error /\ lastErrorNonEmpty (this s)).
Proof.
  intros s _. destruct (classifyFailure_message s) as (Hr & Hst & Hle).
  exists false. repeat split; [exact Hr | exact Hst |].
  eexists. split; [exact Hle|].
  unfold exitedUnexpectedly. destruct (earlyExitCode (this s)); discriminate.
Qed.

Lemma ensures_keeps {A} (m : M A) :
  keeps m -> total m -> ensures ErrorHasMessage m (fun _ => ErrorHasMessage).
Proof. apply ensures_preserved. Qed.

Lemma pollFrom_settled startTime timeoutMs ticks :
  ensures ErrorHasMessage (pollFrom startTime timeoutMs ticks)
    (fun r s => ErrorHasMessage s /\ (r = None -> is_Some (process (this s)))).
Proof.
  induction ticks as [|tk rest IH]; cbn [pollFrom];
    (apply ensures_dateNow; intros t; case_bool_decide as Hlt;
     [|apply ensures_ret; intros s H; by split]);
    apply ensures_getThis; intros pm;
    (destruct (process pm) as [c|] eqn:Hp;
     [|apply ensures_ret; intros s [H _]; by split]).
  - apply ensures_ret. intros s [H <-]. split; [done | by rewrite Hp].
  - apply ensures_bind with (R := fun _ => ErrorHasMessage).
    + apply ensures_weaken with (P := ErrorHasMessage); [by intros s [H _]|].
      apply ensures_keeps; [apply keeps_checkServerHealth | apply total_checkServerHealth].
    + intros [|].
      * apply ensures_ret. intros s H. by split.
      * apply ensures_bind with (R := fun _ => ErrorHasMessage); [|intros _; exact IH].
        apply ensures_keeps; [apply keeps_await | apply total_await].
Qed.

Lemma startBody_settled spawnConfigOf deadlineOf w :
  ensures (fun _ => True) (startBody spawnConfigOf deadlineOf w) startSettled.
Proof.
  unfold startBody. apply ensures_getThis. intros pm.
  destruct (bool_decide (state pm = running) || bool_decide (state pm = starting)) eqn:E.
  { apply ensures_ret. intros s [_ <-]. cbn.
    apply orb_true_iff in E as [E|E]; apply bool_decide_eq_true in E; auto. }
  apply ensures_bind with (R := fun _ s => state (this s) = starting);
    [intros s _; by exists tt | intros _].
  apply ensures_bind with (R := fun _ => ErrorHasMessage).
  { intros s H. exists tt. split; [reflexivity|]. intros He. cbn in He. congruence. }
  intros _.
  apply ensures_bind with (R := fun _ => ErrorHasMessage).
  { apply ensures_keeps; [keeps_modify | apply total_modifyThis]. }
  intros _. apply ensures_getThis. intros pm1.
  destruct (negb (truthy (projectDirectory pm1))).
  { eapply ensures_bind; [apply ensures_setError; discriminate|].
    intros r. apply ensures_ret. intros s (Hr & H). subst r. exact H. }
  apply ensures_bind with (R := fun _ => ErrorHasMessage).
  { apply ensures_weaken with (P := ErrorHasMessage); [by intros s [H _]|].
    apply ensures_keeps; [apply keeps_checkServerHealth | apply total_checkServerHealth]. }
  intros [|].
  { eapply ensures_bind; [apply ensures_setState|].
    intros ?. apply ensures_ret. intros s H. by left. }
  apply ensures_getThis. intros pm2.
  apply ensures_bind with (R := fun _ => ErrorHasMessage).
  { apply ensures_weaken with (P := ErrorHasMessage); [by intros s [H _]|].
    apply ensures_keeps; [apply keeps_emit | apply total_emit]. }
  intros _.
  apply ensures_bind with (R := fun _ => ErrorHasMessage).
  { apply ensures_keeps; [keeps_modify | apply total_modifyThis]. }
  intros _. apply ensures_getThis. intros pm3.
  eapply ensures_bind.
  { apply ensures_weaken with (P := ErrorHasMessage); [by intros s [H _]|].
    unfold waitForServerOrExit. apply ensures_dateNow. intros t.
    apply pollFrom_settled. }
  intros [[|]|].
  - eapply ensures_bind; [apply ensures_setState|].
    intros ?. apply ensures_ret. intros s H. by left.
  - apply ensures_getThis. intros pm4.
    destruct (bool_decide (state pm4 = error)) eqn:He.
    + apply bool_decide_eq_true in He.
      apply ensures_ret. intros s [[H _] <-]. split; [exact He | by apply H].
    + eapply ensures_bind; [apply ensures_classifyFailure|].
      intros r. apply ensures_ret. intros s (Hr & H). subst r. exact H.
  - apply ensures_ret. intros s [_ H]. by apply H.
Qed.


(** ** Success needs an answer *)

Lemma fetch_result url p s :
  exists s', fetch url p s
             = (match outcome p with
                | Responded status => Normal status
                | NetworkError => Throw FetchFailed
                | TimedOut => Throw AbortedByTimer
                end, s').
Proof.
  unfold fetch.
  rewrite (bind_normal (emit (Fetch url 2000)) _ s tt _ eq_refl).
  match goal with |- context [(await (wait p) ≫= _) ?s1] =>
    pose proof (await_normal (wait p) s1) as Ha;
    destruct (await (wait p) s1) as [r2 s2] eqn:E2 end.
  cbn in Ha. subst r2. rewrite (bind_normal _ _ _ _ _ E2).
  destruct (outcome p); by eexists.
Qed.

Lemma checkServerHealth_true p s :
  (checkServerHealth p s).1 = Normal true ->
  answeredOk p /\ isLatin1 (projectDirectory (this s)) = true.
Proof.
  unfold checkServerHealth, tryCatch.
  pose proof (getUrl_result s) as Hurl.
  destruct (isLatin1 (projectDirectory (this s))) eqn:Hl.
  - rewrite (bind_normal _ _ _ _ _ Hurl).
    match goal with |- context [(fetch ?u p ≫= _) s] =>
      destruct (fetch_result u p s) as [s' Hf] end.
    destruct (outcome p) as [status| |] eqn:Ho.
    + rewrite (bind_normal _ _ _ _ _ Hf). cbn. intros H. split; [|reflexivity].
      exists status. split; [exact Ho|].
      unfold responseOk in H. injection H as H. apply andb_true_iff in H. lia.
    + rewrite (bind_throw _ _ _ _ _ Hf). cbn. discriminate.
    + rewrite (bind_throw _ _ _ _ _ Hf). cbn. discriminate.
  - rewrite (bind_throw _ _ _ _ _ Hurl). cbn. discriminate.
Qed.

Lemma pollFrom_true startTime timeoutMs ticks s :
  (pollFrom startTime timeoutMs ticks s).1 = Normal (Some true) ->
  Exists (fun tk => answeredOk (probe tk)) ticks.
Proof.
  revert s. induction ticks as [|tk rest IH]; intros s; cbn [pollFrom];
    rewrite (bind_normal dateNow _ s (now s) s eq_refl);
    (case_bool_decide as Hlt; [|discriminate]);
    rewrite (bind_normal getThis _ s (this s) s eq_refl);
    (destruct (process (this s)); [|discriminate]).
  - discriminate.
  - destruct (total_checkServerHealth (probe tk) s) as [b Hb].
    destruct (checkServerHealth (probe tk) s) as [r s1] eqn:E1. cbn in Hb. subst r.
    rewrite (bind_normal _ _ _ _ _ E1). destruct b.
    + intros _. left. apply (checkServerHealth_true (probe tk) s). by rewrite E1.
    + destruct (total_await (nap tk) s1) as [u Hu]. unfold sleep.
      destruct (await (nap tk) s1) as [r s2] eqn:E2. cbn in Hu. subst r.
      rewrite (bind_normal _ _ _ _ _ E2). intros H. right. by apply (IH s2).
Qed.

Lemma waitForServerOrExit_true timeoutMs ticks s :
  (waitForServerOrExit timeoutMs ticks s).1 = Normal (Some true) ->
  Exists (fun tk => answeredOk (probe tk)) ticks.
Proof.
  unfold waitForServerOrExit.
  rewrite (bind_normal dateNow _ s (now s) s eq_refl). apply pollFrom_true.
Qed.

Lemma startBody_true spawnConfigOf deadlineOf w s :
  (startBody spawnConfigOf deadlineOf w s).1 = Normal (Some true) ->
  state (this s) = running \/ state (this s) = starting
  \/ answeredOk (precheck w)
  \/ Exists (fun tk => answeredOk (probe tk)) (ticks w).
Proof.
  unfold startBody.
  rewrite (bind_normal getThis _ s (this s) s eq_refl).
  destruct (bool_decide (state (this s) = running)
            || bool_decide (state (this s) = starting)) eqn:E.
  { intros _. apply orb_true_iff in E as [E|E]; apply bool_decide_eq_true in E; auto. }
  do 4 (erewrite bind_normal by reflexivity).
  match goal with |- context [negb ?b] => destruct b end; cbn [negb];
    [|erewrite bind_normal by reflexivity; discriminate].
  match goal with |- context [(checkServerHealth ?p ≫= _) ?s0] =>
    destruct (total_checkServerHealth p s0) as [b Hb];
    destruct (checkServerHealth p s0) as [r s1] eqn:E1 end.
  cbn in Hb. subst r. rewrite (bind_normal _ _ _ _ _ E1). destruct b.
  { intros _. right. right. left.
    eapply checkServerHealth_true. by rewrite E1. }
  do 4 (erewrite bind_normal by reflexivity).
  match goal with |- context [(waitForServerOrExit ?d ?t ≫= _) ?s0] =>
    destruct (total_waitForServerOrExit d t s0) as [ready Hr];
    pose proof (waitForServerOrExit_true d t s0) as Htrue;
    destruct (waitForServerOrExit d t s0) as [r s2] eqn:E2 end.
  cbn in Hr, Htrue. subst r. rewrite (bind_normal _ _ _ _ _ E2).
  destruct ready as [[|]|].
  - intros _. right. right. right. by apply Htrue.
  - rewrite (bind_normal getThis _ s2 (this s2) s2 eq_refl).
    destruct (bool_decide (state (this s2) = error)); [discriminate|].
    destruct (classifyFailure_message s2) as (Hc & _).
    destruct (classifyFailure s2) as [r s3] eqn:E3. cbn in Hc. subst r.
    rewrite (bind_normal _ _ _ _ _ E3). discriminate.
  - discriminate.
Qed.

(** [start] reports success only when it was already [running] or
    [starting], or when a health probe of this call (the first check or one
    of the polling loop) was answered with a status in 200..299.  Both
    copies. *)
Theorem start_true_needs_answer (node : Node) (w : StartScript) (s : Machine) :
  ((start node w s).1 = Normal (Some true) ->
   state (this s) = running \/ state (this s) = starting
   \/ answeredOk (precheck w)
   \/ Exists (fun tk => answeredOk (probe tk)) (ticks w))
  /\ ((Sibling.start node w s).1 = Normal (Some true) ->
      state (this s) = running \/ state (this s) = starting
      \/ answeredOk (precheck w)
      \/ Exists (fun tk => answeredOk (probe tk)) (ticks w)).
Proof.
  split.
  - exact (startBody_true (shellSpawnConfig node) (fun _ => 15000) w s).
  - exact (startBody_true (directSpawnConfig node)
             (fun pm => Types.startupTimeout (settings pm)) w s).
Qed.

(** ** [start] without a project directory *)

Lemma startBody_without_directory spawnConfigOf deadlineOf w s :
  state (this s) = stopped \/ state (this s) = error ->
  projectDirectory (this s) = [] ->
  startBody spawnConfigOf deadlineOf w s
  = (Normal (Some false),
     {| this := {| process := process (this s);
                   state := error;
                   lastError := Some (lit "Project directory (vault) not configured");
                   earlyExitCode := None;
                   settings := settings (this s);
                   workingDirectory := workingDirectory (this s);
                   projectDirectory := [] |};
        trace := trace s ++ [StateChanged starting; StateChanged error];
        now := now s |}).
Proof.
  intros Hst Hdir. unfold startBody.
  rewrite (bind_normal getThis _ s (this s) s eq_refl).
  replace (bool_decide (state (this s) = running) || bool_decide (state (this s) = starting))
    with false by (destruct Hst as [-> | ->]; reflexivity).
  do 4 (erewrite bind_normal by reflexivity).
  cbn [this projectDirectory set_earlyExitCode set_lastError set_state].
  rewrite Hdir. cbn [truthy negb].
  erewrite bind_normal by reflexivity.
  cbn [this trace now process state lastError earlyExitCode settings
       workingDirectory projectDirectory set_state set_lastError
       set_earlyExitCode].
  rewrite <- app_assoc, <- Hdir. reflexivity.
Qed.

(** With the project directory unset (the empty string), a [start] that
    is not already under way fails at once: it returns [false], the state
    goes [starting] then [error] with the message "Project directory
    (vault) not configured", and nothing else happens: no health check, no
    spawn, no signal, the process handle and the clock are untouched.
    Both copies. *)
Theorem start_without_directory (node : Node) (w : StartScript) (s : Machine) :
  state (this s) = stopped \/ state (this s) = error ->
  projectDirectory (this s) = [] ->
  let failed :=
    (Normal (Some false),
     {| this := {| process := process (this s);
                   state := error;
                   lastError := Some (lit "Project directory (vault) not configured");
                   earlyExitCode := None;
                   settings := settings (this s);
                   workingDirectory := workingDirectory (this s);
                   projectDirectory := [] |};
        trace := trace s ++ [StateChanged starting; StateChanged error];
        now := now s |}) in
  start node w s = failed /\ Sibling.start node w s = failed.
Proof.
  intros Hst Hdir failed. unfold start, Sibling.start.
  split; exact (startBody_without_directory _ _ w s Hst Hdir).
Qed.

(** ** The polling loop at its bounds *)

(** [waitForServerOrExit] gives up without a single probe, leaving the
    machine as it is, when the timeout is zero or negative, and also when
    the supervisor holds no process handle at the time of the call. *)
Theorem wait_gives_up_at_once (timeoutMs : Z) (turns : list Tick) (s : Machine) :
  timeoutMs <= 0 \/ process (this s) = None ->
  waitForServerOrExit timeoutMs turns s = (Normal (Some false), s).
Proof.
  intros H. unfold waitForServerOrExit.
  rewrite (bind_normal dateNow _ s (now s) s eq_refl).
  destruct turns as [|tk rest]; cbn [pollFrom];
    rewrite (bind_normal dateNow _ s (now s) s eq_refl);
    (case_bool_decide as Hlt; [|reflexivity]);
    rewrite (bind_normal getThis _ s (this s) s eq_refl);
    (destruct H as [H | ->]; [lia | reflexivity]).
Qed.

(** ** The observers *)

(** The error observer, in any state: the handle is cleared, the state
    becomes [error] and the observer is told once; [lastError] names the
    configured executable when the error code is [ENOENT] and quotes the
    error message otherwise.  Nothing else changes. *)
Theorem error_observer (code : option jsstring) (message : jsstring) (s : Machine) :
  onError code message s
  = (Normal tt,
     {| this := {| process := None;
                   state := error;
                   lastError :=
                     Some (if bool_decide (code = Some (lit "ENOENT"))
                           then lit "Executable not found at '"
                                  ++ Types.opencodePath (settings (this s)) ++ lit "'"
                           else lit "Failed to start: " ++ message);
                   earlyExitCode := earlyExitCode (this s);
                   settings := settings (this s);
                   workingDirectory := workingDirectory (this s);
                   projectDirectory := projectDirectory (this s) |};
        trace := trace s ++ [StateChanged error];
        now := now s |}).
Proof.
  unfold onError.
  do 2 (erewrite bind_normal by reflexivity).
  cbn [this set_process settings].
  destruct (bool_decide (code = Some (lit "ENOENT")));
    erewrite bind_normal by reflexivity; reflexivity.
Qed.

(** The exit observer outside the two cases it acts on: in state [stopped]
    or [error], or in state [starting] with a null or zero exit code, it
    only clears the handle: no state change, no notification, no early
    exit code, [lastError] untouched. *)
Theorem exit_observer_quiet (code : option Z) (signal : option jsstring) (s : Machine) :
  state (this s) = stopped \/ state (this s) = error
  \/ (state (this s) = starting /\ (code = None \/ code = Some 0)) ->
  onExit code signal s
  = (Normal tt,
     {| this := set_process None (this s); trace := trace s; now := now s |}).
Proof.
  intros H. destruct s as [[p st le ec cf wd pd] tr t]. unfold onExit. cbn in H.
  do 2 (erewrite bind_normal by reflexivity). cbn [this set_process state].
  destruct H as [-> | [-> | [-> [-> | ->]]]]; try reflexivity.
  all: destruct code as [c|]; reflexivity.
Qed.

(** ** An invariant rule for the supervisor *)

Lemma seq_assoc {B} (a b : M unit) (rest : M B) (s : Machine) :
  (a ≫= fun _ => b ≫= fun _ => rest) s = ((a ≫= fun _ => b) ≫= fun _ => rest) s.
Proof.
  unfold mbind, M_bind. destruct (a s) as [[[]|e] s1]; [|reflexivity].
  destruct (b s1) as [[[]|e] s2]; reflexivity.
Qed.

Lemma preserves_ext {A} (I : Machine -> Prop) (m m' : M A) :
  (forall s, m s = m' s) -> preserves I m' -> preserves I m.
Proof. intros He Hm s H. rewrite He. by apply Hm. Qed.

Lemma preserves_after2 {B} (I : Machine -> Prop) (a b : M unit) (rest : M B) :
  preserves I (a ≫= fun _ => b) -> preserves I rest ->
  preserves I (a ≫= fun _ => b ≫= fun _ => rest).
Proof.
  intros Hab Hrest. apply preserves_ext with (m' := (a ≫= fun _ => b) ≫= fun _ => rest).
  - apply seq_assoc.
  - apply preserves_bind; [exact Hab | intros _; exact Hrest].
Qed.

Lemma preserves_after3 {B} (I : Machine -> Prop) (a b c : M unit) (rest : M B) :
  preserves I (a ≫= fun _ => b ≫= fun _ => c) -> preserves I rest ->
  preserves I (a ≫= fun _ => b ≫= fun _ => c ≫= fun _ => rest).
Proof.
  intros Habc Hrest.
  apply preserves_ext
    with (m' := (a ≫= fun _ => b ≫= fun _ => c) ≫= fun _ => rest).
  - intros s. unfold mbind, M_bind. destruct (a s) as [[[]|e] s1]; [|reflexivity].
    destruct (b s1) as [[[]|e] s2]; [|reflexivity].
    destruct (c s2) as [[[]|e] s3]; reflexivity.
  - apply preserves_bind; [exact Habc | intros _; exact Hrest].
Qed.

(** A property of machines that holds of a fresh supervisor and survives
    the steps below holds of every reachable machine. *)
Section Invariant.

Context (I : Machine -> Prop).
Hypothesis I_new : forall settings0 workingDirectory0 projectDirectory0 t0,
  I (boot (new settings0 workingDirectory0 projectDirectory0) t0).
Hypothesis I_elapse : forall ms, preserves I (elapse ms).
Hypothesis I_fetch : forall url ms, preserves I (emit (Fetch url ms)).
Hypothesis I_sigkill : forall proc, preserves I (emit (Kill proc SIGKILL)).
Hypothesis I_clear : preserves I (modifyThis (set_process None)).
Hypothesis I_code : forall c, preserves I (modifyThis (set_earlyExitCode c)).
Hypothesis I_settings : forall st, preserves I (modifyThis (set_settings st)).
Hypothesis I_directory : forall d, preserves I (modifyThis (set_projectDirectory d)).
Hypothesis I_stopped : preserves I (setState stopped).
Hypothesis I_running : preserves I (setState running).
Hypothesis I_error : forall message, preserves I (setError message).
Hypothesis I_stop : preserves I stop.
Hypothesis I_begin :
  preserves I (setState starting ≫= fun _ =>
               modifyThis (set_lastError None) ≫= fun _ =>
               modifyThis (set_earlyExitCode None)).
Hypothesis I_spawn : forall cfg proc,
  preserves I (emit (Spawn cfg proc) ≫= fun _ =>
               modifyThis (set_process (Some proc))).

#[local] Hint Resolve I_elapse I_fetch I_sigkill I_clear I_code I_settings
  I_directory I_stopped I_running I_error I_stop : preserves.

Lemma preserves_startBody spawnConfigOf deadlineOf w :
  preserves I (startBody spawnConfigOf deadlineOf w).
Proof.
  unfold startBody. apply preserves_bind; [apply preserves_getThis | intros pm].
  destruct (_ || _); [apply preserves_ret|].
  apply preserves_after3; [exact I_begin|].
  apply preserves_bind; [apply preserves_getThis | intros pm1].
  destruct (negb _); [repeat preserves_step|].
  apply preserves_bind; [by apply preserves_checkServerHealth | intros [|]].
  { repeat preserves_step. }
  apply preserves_bind; [apply preserves_getThis | intros pm2].
  apply preserves_after2; [apply I_spawn|].
  apply preserves_bind; [apply preserves_getThis | intros pm3].
  apply preserves_bind; [by apply preserves_waitForServerOrExit | intros ready].
  assert (preserves I classifyFailure) by (by apply preserves_classifyFailure).
  repeat preserves_step.
Qed.

Lemma preserves_perform node c : forall s, I s -> I (perform node c s).
Proof.
  destruct c; cbn [perform].
  - exact (preserves_startBody (shellSpawnConfig node) (fun _ => 15000) w).
  - exact I_stop.
  - change (preserves I getState). unfold getState. repeat preserves_step.
  - change (preserves I getLastError). unfold getLastError. repeat preserves_step.
  - change (preserves I getUrl). by apply preserves_getUrl.
  - exact (I_settings s).
  - exact (I_directory d).
  - change (preserves I (handle ev)). by apply preserves_handle.
  - change (preserves I (forceKill proc exitCode signalCode)).
    unfold forceKill. repeat preserves_step.
Qed.

Lemma reachable_invariant node s : Reachable node s -> I s.
Proof.
  induction 1 as [st wd pd t0 | s c Hs IH]; [apply I_new | by apply preserves_perform].
Qed.

End Invariant.

(** ** Invariants of the reachable machines *)


Lemma notifiedOf_snoc tr e :
  notifiedOf (tr ++ [e])
  = notifiedOf tr ++ match e with StateChanged st => [st] | _ => [] end.
Proof. unfold notifiedOf. rewrite omap_app. by destruct e. Qed.

Lemma spawnedOf_snoc tr e :
  spawnedOf (tr ++ [e])
  = spawnedOf tr ++ match e with Spawn _ proc => [proc] | _ => [] end.
Proof. unfold spawnedOf. rewrite omap_app. by destruct e. Qed.

Lemma timersOf_snoc tr e :
  timersOf (tr ++ [e])
  = timersOf tr ++ match e with SetTimeout ms proc => [(ms, proc)] | _ => [] end.
Proof. unfold timersOf. rewrite omap_app. by destruct e. Qed.

Lemma signalsSent_app tr tr' :
  signalsSent (tr ++ tr') = signalsSent tr ++ signalsSent tr'.
Proof.
  induction tr as [|e tr IH]; [reflexivity|].
  destruct e; cbn; by rewrite IH.
Qed.

Lemma stop_trace (s : Machine) :
  trace (stop s).2
  = match process (this s) with
    | Some proc =>
        ((trace s ++ [StateChanged stopped]) ++ [Kill proc SIGTERM])
          ++ [SetTimeout 2000 proc]
    | None => trace s ++ [StateChanged stopped]
    end.
Proof.
  rewrite stop_result. cbn. destruct (process (this s)); [|reflexivity].
  by rewrite <- !app_assoc.
Qed.

(** In every reachable machine the state is the one the observer was
    told last ([stopped] if it was told nothing yet): the state never
    changes without a notification. *)
Theorem observer_in_sync (node : Node) (s : Machine) :
  Reachable node s ->
  state (this s) = default stopped (last (notifiedOf (trace s))).
Proof.
  apply (reachable_invariant ObserverInSync); unfold ObserverInSync;
    try (intros; intros m H; try rewrite stop_trace;
         try (rewrite stop_result; destruct (process (this m)));
         unfold setError, setState, mbind, M_bind, modifyThis, emit, elapse, mret, M_ret;
         cbn [this trace state fst snd set_state set_lastError set_earlyExitCode
              set_process set_settings set_projectDirectory];
         rewrite ?notifiedOf_snoc, ?app_nil_r, ?last_snoc; done).
  reflexivity.
Qed.

Lemma stop_this (s : Machine) :
  this (stop s).2 = set_process None (set_state stopped (this s)).
Proof. by rewrite stop_result. Qed.

#[local] Set Warnings "-clear-no-such-hyp".

Ltac spawn_safe_step :=
  unfold setError, setState, mbind, M_bind, modifyThis, emit, elapse, mret, M_ret;
  cbn [this trace process fst snd set_state set_lastError set_earlyExitCode
       set_process set_settings set_projectDirectory];
  rewrite ?spawnedOf_snoc, ?signalsSent_app, ?timersOf_snoc;
  cbn [signalsSent]; rewrite ?app_nil_r;
  split_and!; intros; set_unfold; naive_solver.

(** In every reachable machine the process handle, if there is one, is a
    process this supervisor spawned; every [SIGTERM] ever sent went to a
    process it spawned; and every timer armed for the forceful kill is a
    2000 ms timer for a process it spawned. *)
Theorem signals_only_to_spawned (node : Node) (s : Machine) :
  Reachable node s ->
  (forall proc, process (this s) = Some proc -> proc ∈ spawnedOf (trace s))
  /\ (forall proc, (proc, SIGTERM) ∈ signalsSent (trace s) -> proc ∈ spawnedOf (trace s))
  /\ (forall ms proc, (ms, proc) ∈ timersOf (trace s) ->
        ms = 2000 /\ proc ∈ spawnedOf (trace s)).
Proof.
  apply (reachable_invariant SpawnSafe); unfold SpawnSafe.
  - intros. cbn. split_and!; intros; set_unfold; naive_solver.
  - intros ms m (Hh & Hk & Ht). spawn_safe_step.
  - intros url ms m (Hh & Hk & Ht). spawn_safe_step.
  - intros proc m (Hh & Hk & Ht). spawn_safe_step.
  - intros m (Hh & Hk & Ht). spawn_safe_step.
  - intros c m (Hh & Hk & Ht). spawn_safe_step.
  - intros st m (Hh & Hk & Ht). spawn_safe_step.
  - intros d m (Hh & Hk & Ht). spawn_safe_step.
  - intros m (Hh & Hk & Ht). spawn_safe_step.
  - intros m (Hh & Hk & Ht). spawn_safe_step.
  - intros message m (Hh & Hk & Ht). spawn_safe_step.
  - intros m (Hh & Hk & Ht). rewrite stop_this, stop_trace.
    destruct (process (this m)) as [proc|] eqn:Hp; spawn_safe_step.
  - intros m (Hh & Hk & Ht). spawn_safe_step.
  - intros cfg proc m (Hh & Hk & Ht). spawn_safe_step.
Qed.

(** ** When [start] spawns *)

Lemma checkServerHealth_value p s :
  (checkServerHealth p s).1
  = Normal (answersOk p && isLatin1 (projectDirectory (this s))).
Proof.
  unfold checkServerHealth, tryCatch, answersOk.
  pose proof (getUrl_result s) as Hurl.
  destruct (isLatin1 (projectDirectory (this s))) eqn:Hl.
  - rewrite (bind_normal _ _ _ _ _ Hurl).
    match goal with |- context [(fetch ?u p ≫= _) s] =>
      destruct (fetch_result u p s) as [s' Hf] end.
    destruct (outcome p) as [status| |].
    + rewrite (bind_normal _ _ _ _ _ Hf). cbn. by rewrite andb_true_r.
    + by rewrite (bind_throw _ _ _ _ _ Hf).
    + by rewrite (bind_throw _ _ _ _ _ Hf).
  - rewrite (bind_throw _ _ _ _ _ Hurl). cbn. by rewrite andb_false_r.
Qed.

Ltac trace_step :=
  intros; intros ? ?; unfold SpawnedIs in *; try rewrite stop_trace;
  try match goal with |- context [process (this ?m)] => destruct (process (this m)) end;
  unfold setError, setState, mbind, M_bind, modifyThis, emit, elapse, mret, M_ret;
  cbn [this trace fst snd];
  rewrite ?spawnedOf_snoc, ?app_nil_r; done.

Lemma spawned_kept (l : list ChildProcess) :
  let I := SpawnedIs l in
  (forall p, preserves I (checkServerHealth p))
  /\ (forall timeoutMs turns, preserves I (waitForServerOrExit timeoutMs turns))
  /\ preserves I classifyFailure.
Proof.
  intros I. subst I.
  assert (H1 : forall ms, preserves (SpawnedIs l) (elapse ms)) by trace_step.
  assert (H2 : forall url ms, preserves (SpawnedIs l) (emit (Fetch url ms))) by trace_step.
  assert (H3 : preserves (SpawnedIs l) (modifyThis (set_process None))) by trace_step.
  assert (H4 : forall c, preserves (SpawnedIs l) (modifyThis (set_earlyExitCode c))) by trace_step.
  assert (H5 : preserves (SpawnedIs l) (setState stopped)) by trace_step.
  assert (H6 : forall message, preserves (SpawnedIs l) (setError message)) by trace_step.
  assert (H7 : preserves (SpawnedIs l) stop) by trace_step.
  split_and!; intros.
  - by apply preserves_checkServerHealth.
  - by apply preserves_waitForServerOrExit.
  - by apply preserves_classifyFailure.
Qed.

Ltac tidy :=
  unfold mret, M_ret, setState, mbind, M_bind, modifyThis, emit;
  cbn [fst snd trace this now].

Lemma startBody_spawns spawnConfigOf deadlineOf w s :
  spawnedOf (trace (startBody spawnConfigOf deadlineOf w s).2)
  = spawnedOf (trace s) ++ (if willSpawn w (this s) then [child w] else []).
Proof.
  unfold startBody, willSpawn.
  rewrite (bind_normal getThis _ s (this s) s eq_refl).
  destruct (bool_decide (state (this s) = running)
            || bool_decide (state (this s) = starting)).
  { tidy. by rewrite app_nil_r. }
  do 4 (erewrite bind_normal by reflexivity).
  cbn [negb andb this projectDirectory set_earlyExitCode set_lastError set_state].
  destruct (truthy (projectDirectory (this s))) eqn:Ht; cbn [negb andb].
  2:{ erewrite bind_normal by reflexivity. tidy.
      by rewrite !spawnedOf_snoc, !app_nil_r. }
  match goal with |- context [(checkServerHealth ?p ≫= _) ?s0] =>
    pose proof (checkServerHealth_value p s0) as Hv;
    pose proof (proj1 (spawned_kept (spawnedOf (trace s0))) p s0 eq_refl) as Hk;
    destruct (checkServerHealth p s0) as [r s1] eqn:E1 end.
  unfold SpawnedIs in Hk. cbn [fst snd trace this projectDirectory set_earlyExitCode
    set_lastError set_state] in Hv, Hk.
  subst r. rewrite (bind_normal _ _ _ _ _ E1).
  rewrite spawnedOf_snoc, app_nil_r in Hk.
  destruct (answersOk (precheck w) && isLatin1 (projectDirectory (this s))).
  { tidy. by rewrite spawnedOf_snoc, app_nil_r, Hk, app_nil_r. }
  do 4 (erewrite bind_normal by reflexivity).
  cbn [negb this trace].
  match goal with |- context [(waitForServerOrExit ?d ?t ≫= _) ?s0] =>
    destruct (total_waitForServerOrExit d t s0) as [ready Hr];
    pose proof (proj1 (proj2 (spawned_kept (spawnedOf (trace s0)))) d t s0 eq_refl) as Hw;
    destruct (waitForServerOrExit d t s0) as [r s2] eqn:E2 end.
  unfold SpawnedIs in Hw. cbn [fst snd trace this] in Hr, Hw.
  subst r. rewrite (bind_normal _ _ _ _ _ E2).
  rewrite spawnedOf_snoc, Hk in Hw.
  destruct ready as [[|]|].
  - tidy. by rewrite spawnedOf_snoc, app_nil_r.
  - rewrite (bind_normal getThis _ s2 (this s2) s2 eq_refl).
    destruct (bool_decide (state (this s2) = error)); [exact Hw|].
    pose proof (proj2 (proj2 (spawned_kept (spawnedOf (trace s2)))) s2 eq_refl) as Hc.
    destruct (total_classifyFailure s2) as [r Hr].
    destruct (classifyFailure s2) as [r' s3] eqn:E3.
    unfold SpawnedIs in Hc. cbn [fst snd] in Hr, Hc. subst r'.
    rewrite (bind_normal _ _ _ _ _ E3). tidy. by rewrite Hc.
  - exact Hw.
Qed.

(** One call of [start] spawns at most one process, and it spawns exactly
    when the supervisor is neither [running] nor [starting], the project
    directory is set, and the first health check does not find a server
    (no answer with a status in 200..299, or no URL to ask).  Whatever
    the handlers and the polling loop then do, they spawn nothing.  Both
    copies. *)
Theorem start_spawns (node : Node) (w : StartScript) (s : Machine) :
  spawnedOf (trace (start node w s).2)
  = spawnedOf (trace s) ++ (if willSpawn w (this s) then [child w] else [])
  /\ spawnedOf (trace (Sibling.start node w s).2)
     = spawnedOf (trace s) ++ (if willSpawn w (this s) then [child w] else []).
Proof.
  split.
  - exact (startBody_spawns (shellSpawnConfig node) (fun _ => 15000) w s).
  - exact (startBody_spawns (directSpawnConfig node)
             (fun pm => Types.startupTimeout (settings pm)) w s).
Qed.

(** ** A project directory that [btoa] rejects *)

Lemma fetchesOf_snoc tr e :
  fetchesOf (tr ++ [e])
  = fetchesOf tr ++ match e with Fetch url _ => [url] | _ => [] end.
Proof. unfold fetchesOf. rewrite omap_app. by destruct e. Qed.

Lemma checkServerHealth_without_url p s :
  isLatin1 (projectDirectory (this s)) = false ->
  checkServerHealth p s = (Normal false, s).
Proof.
  intros Hl. unfold checkServerHealth, tryCatch.
  pose proof (getUrl_result s) as Hurl. rewrite Hl in Hurl.
  by rewrite (bind_throw _ _ _ _ _ Hurl).
Qed.

Ltac quiet_step :=
  intros; intros ? [? ?]; unfold DirectoryAndFetches in *; try rewrite stop_trace, stop_this;
  try match goal with |- context [process (this ?m)] => destruct (process (this m)) end;
  unfold setError, setState, mbind, M_bind, modifyThis, emit, elapse, mret, M_ret;
  cbn [this trace fst snd projectDirectory set_state set_lastError set_earlyExitCode
       set_process];
  rewrite ?fetchesOf_snoc, ?app_nil_r; done.

Lemma quiet_kept (d : jsstring) (l : list jsstring) :
  (forall a, preserves (DirectoryAndFetches d l) (await a))
  /\ preserves (DirectoryAndFetches d l) classifyFailure.
Proof.
  assert (H1 : forall ms, preserves (DirectoryAndFetches d l) (elapse ms)) by quiet_step.
  assert (H3 : preserves (DirectoryAndFetches d l) (modifyThis (set_process None)))
    by quiet_step.
  assert (H4 : forall c, preserves (DirectoryAndFetches d l)
                           (modifyThis (set_earlyExitCode c))) by quiet_step.
  assert (H5 : preserves (DirectoryAndFetches d l) (setState stopped)) by quiet_step.
  assert (H6 : forall message, preserves (DirectoryAndFetches d l) (setError message))
    by quiet_step.
  assert (H7 : preserves (DirectoryAndFetches d l) stop) by quiet_step.
  split; intros.
  - by apply preserves_await.
  - by apply preserves_classifyFailure.
Qed.

Lemma pollFrom_without_url d l startTime timeoutMs turns :
  isLatin1 d = false ->
  forall s, DirectoryAndFetches d l s ->
    (pollFrom startTime timeoutMs turns s).1 <> Normal (Some true)
    /\ DirectoryAndFetches d l (pollFrom startTime timeoutMs turns s).2.
Proof.
  intros Hl. induction turns as [|tk rest IH]; intros s Hs; cbn [pollFrom];
    rewrite (bind_normal dateNow _ s (now s) s eq_refl);
    (case_bool_decide as Hlt; [|by split]);
    rewrite (bind_normal getThis _ s (this s) s eq_refl);
    (destruct (process (this s)); [|by split]).
  - by split.
  - erewrite bind_normal
      by (apply checkServerHealth_without_url; destruct Hs as [-> _]; exact Hl).
    lazy beta iota. unfold sleep.
    destruct (total_await (nap tk) s) as [u Hu].
    pose proof (proj1 (quiet_kept d l) (nap tk) s Hs) as Hk.
    destruct (await (nap tk) s) as [r s1] eqn:E1. cbn [fst snd] in Hu, Hk. subst r.
    rewrite (bind_normal _ _ _ _ _ E1). by apply IH.
Qed.

Lemma startBody_without_url spawnConfigOf deadlineOf w s :
  isLatin1 (projectDirectory (this s)) = false ->
  state (this s) = stopped \/ state (this s) = error ->
  (startBody spawnConfigOf deadlineOf w s).1 <> Normal (Some true)
  /\ fetchesOf (trace (startBody spawnConfigOf deadlineOf w s).2) = fetchesOf (trace s).
Proof.
  intros Hl Hst. unfold startBody.
  rewrite (bind_normal getThis _ s (this s) s eq_refl).
  replace (bool_decide (state (this s) = running) || bool_decide (state (this s) = starting))
    with false by (destruct Hst as [-> | ->]; reflexivity).
  do 4 (erewrite bind_normal by reflexivity).
  cbn [this projectDirectory set_earlyExitCode set_lastError set_state].
  destruct (projectDirectory (this s)) as [|u dir] eqn:Hpd; [discriminate|].
  cbn [truthy negb].
  erewrite bind_normal
    by (apply checkServerHealth_without_url; cbn; by rewrite Hpd).
  lazy beta iota.
  do 4 (erewrite bind_normal by reflexivity).
  unfold waitForServerOrExit.
  match goal with |- context [((dateNow ≫= _) ≫= _) ?s3] =>
    destruct (pollFrom_without_url (u :: dir) (fetchesOf (trace s))
                (now s3) (deadlineOf (this s3)) (ticks w) Hl s3) as [Hne Hk];
      [split; [cbn; exact Hpd | tidy; by rewrite !fetchesOf_snoc, !app_nil_r]|];
    destruct (total_pollFrom (now s3) (deadlineOf (this s3)) (ticks w) s3) as [ready Hr];
    destruct (pollFrom (now s3) (deadlineOf (this s3)) (ticks w) s3) as [r s4] eqn:Hpoll
  end.
  cbn [fst snd] in Hne, Hk, Hr. subst r.
  erewrite (bind_normal (dateNow ≫= _));
    [|erewrite (bind_normal dateNow) by reflexivity; exact Hpoll].
  destruct ready as [[|]|]; [done | |].
  - rewrite (bind_normal getThis _ s4 (this s4) s4 eq_refl).
    destruct (bool_decide (state (this s4) = error)); [split; [done | apply Hk]|].
    pose proof (proj2 (quiet_kept _ _) s4 Hk) as Hc.
    destruct (total_classifyFailure s4) as [r Hr].
    destruct (classifyFailure s4) as [r' s5] eqn:E5. cbn [fst snd] in Hr, Hc. subst r'.
    rewrite (bind_normal _ _ _ _ _ E5). tidy.
    split; [|apply Hc].
    destruct (classifyFailure_message s4) as (Hf & _). rewrite E5 in Hf.
    cbn in Hf. injection Hf as ->. discriminate.
  - split; [done | apply Hk].
Qed.

(** When the project directory has a code unit above U+00FF, a [start]
    that is not already under way can never report success: the health
    URL cannot be built, so no request is ever sent, every health check
    counts as failed, and the call ends with [false] (or is still
    pending).  Both copies. *)
Theorem start_without_url (node : Node) (w : StartScript) (s : Machine) :
  isLatin1 (projectDirectory (this s)) = false ->
  state (this s) = stopped \/ state (this s) = error ->
  ((start node w s).1 <> Normal (Some true)
   /\ fetchesOf (trace (start node w s).2) = fetchesOf (trace s))
  /\ ((Sibling.start node w s).1 <> Normal (Some true)
      /\ fetchesOf (trace (Sibling.start node w s).2) = fetchesOf (trace s)).
Proof.
  intros Hl Hst. split.
  - exact (startBody_without_url (shellSpawnConfig node) (fun _ => 15000) w s Hl Hst).
  - exact (startBody_without_url (directSpawnConfig node)
             (fun pm => Types.startupTimeout (settings pm)) w s Hl Hst).
Qed.

(** ** The spawn configuration *)

(** The environment handed to the child.  On [win32] it is [process.env]
    as it is.  Elsewhere [HOME] is the home directory, [XDG_CONFIG_HOME]
    is the inherited value when that is set and not empty and
    [<home>/.config] otherwise (so it is never empty), and every other
    variable is inherited unchanged. *)
Theorem child_environment (node : Node) (pm : ProcessManager) (baseCommand : jsstring) :
  (platform node = lit "win32" ->
   env (options (buildSpawnConfig node pm baseCommand)) = processEnv node)
  /\ (platform node <> lit "win32" ->
      env (options (buildSpawnConfig node pm baseCommand)) !! lit "HOME"
      = Some (homedir node)
      /\ (exists xdg,
            env (options (buildSpawnConfig node pm baseCommand)) !! lit "XDG_CONFIG_HOME"
            = Some xdg
            /\ xdg <> []
            /\ xdg = match processEnv node !! lit "XDG_CONFIG_HOME" with
                     | Some (u :: inherited) => u :: inherited
                     | _ => homedir node ++ lit "/.config"
                     end)
      /\ (forall name, name <> lit "HOME" -> name <> lit "XDG_CONFIG_HOME" ->
            env (options (buildSpawnConfig node pm baseCommand)) !! name
            = processEnv node !! name)).
Proof.
  unfold buildSpawnConfig. split; intros Hp.
  - by rewrite bool_decide_eq_true_2.
  - rewrite bool_decide_eq_false_2 by exact Hp. cbn [options env]. split_and!.
    + rewrite lookup_insert_ne by discriminate. apply lookup_insert_eq.
    + eexists. split; [apply lookup_insert_eq|]. unfold orElse.
      destruct (processEnv node !! lit "XDG_CONFIG_HOME") as [[|u inherited]|];
        cbn [truthy]; split; try reflexivity; try discriminate.
      all: destruct (homedir node); discriminate.
    + intros name H1 H2. by rewrite !lookup_insert_ne.
Qed.

Lemma firstNvm_none node dirs :
  (forall p, existsSync node p = false) -> firstNvm node dirs = [].
Proof.
  intros H. induction dirs as [|d rest IH]; [reflexivity|].
  cbn [firstNvm]. by rewrite H.
Qed.

Lemma unixEnvParts_none node home isZsh :
  (forall p, existsSync node p = false) -> unixEnvParts node home isZsh = [].
Proof.
  intros H. unfold unixEnvParts. rewrite firstNvm_none by exact H.
  rewrite !H. unfold brewPaths. rewrite !filter_cons, filter_nil.
  rewrite !H. by destruct isZsh.
Qed.

(** The command on a host other than [win32]: the shell is [$SHELL], or
    [/bin/bash] when that is unset or empty, and is never the empty
    string; the arguments are [-c] and one command line that ends with the
    base command; when none of the probed files and directories exists,
    that command line is the base command alone. *)
Theorem unix_shell_command (node : Node) (pm : ProcessManager) (baseCommand : jsstring) :
  platform node <> lit "win32" ->
  command (buildSpawnConfig node pm baseCommand)
  = match processEnv node !! lit "SHELL" with
    | Some (u :: shell) => u :: shell
    | _ => lit "/bin/bash"
    end
  /\ command (buildSpawnConfig node pm baseCommand) <> []
  /\ (exists setup,
        args (buildSpawnConfig node pm baseCommand) = [lit "-c"; setup ++ baseCommand])
  /\ ((forall p, existsSync node p = false) ->
      args (buildSpawnConfig node pm baseCommand) = [lit "-c"; baseCommand]).
Proof.
  intros Hp. unfold buildSpawnConfig.
  rewrite bool_decide_eq_false_2 by exact Hp. cbn [command args]. split_and!.
  - unfold orElse. by destruct (processEnv node !! lit "SHELL") as [[|u shell]|].
  - unfold orElse. by destruct (processEnv node !! lit "SHELL") as [[|u shell]|].
  - destruct (truthy _).
    + eexists. by rewrite app_assoc.
    + by exists [].
  - intros Hnone. unfold buildUnixEnvSetup.
    by rewrite unixEnvParts_none.
Qed.

(** However the child is launched (through [cmd.exe], through the shell,
    or directly by the sibling copy) it runs in the working directory,
    with stdin ignored and stdout and stderr piped, and is never
    detached. *)
Theorem spawn_options_fixed (node : Node) (pm : ProcessManager) (baseCommand : jsstring) :
  let shelled := options (buildSpawnConfig node pm baseCommand) in
  let direct := options (directSpawnConfig node pm) in
  (cwd shelled = workingDirectory pm
   /\ stdio shelled = [lit "ignore"; lit "pipe"; lit "pipe"]
   /\ detached shelled = false)
  /\ (cwd direct = workingDirectory pm
      /\ stdio direct = [lit "ignore"; lit "pipe"; lit "pipe"]
      /\ detached direct = false).
Proof.
  unfold buildSpawnConfig. destruct (bool_decide (platform node = lit "win32"));
    repeat split.
Qed.

(** The command line that [src/ProcessManager.ts] hands to the shell is
    the argument vector of the sibling copy, executable first, joined by
    single spaces, with no quoting. *)
Theorem shell_line_is_argv_joined (node : Node) (pm : ProcessManager) :
  baseCmd pm
  = joinWith (lit " ")
      (command (directSpawnConfig node pm) :: args (directSpawnConfig node pm)).
Proof.
  unfold baseCmd, directSpawnConfig. cbn [command args joinWith].
  reflexivity.
Qed.

(** The [for ... break] loop over the nvm directories pushes at most one
    part, for the first directory in order whose [nvm.sh] exists: every
    directory before it has none.  It pushes nothing exactly when no
    directory has one. *)
Theorem nvm_first_wins (node : Node) (dirs : list jsstring) :
  match firstNvm node dirs with
  | [] => Forall (fun d => existsSync node (join node [d; lit "nvm.sh"]) = false) dirs
  | [part] =>
      exists before nvmDir after,
        dirs = before ++ nvmDir :: after
        /\ Forall (fun d => existsSync node (join node [d; lit "nvm.sh"]) = false) before
        /\ existsSync node (join node [nvmDir; lit "nvm.sh"]) = true
        /\ part = lit "export NVM_DIR=" ++ dquote ++ nvmDir ++ dquote
                    ++ lit "; source " ++ dquote ++ join node [nvmDir; lit "nvm.sh"]
                    ++ dquote ++ lit " 2>/dev/null"
  | _ :: _ :: _ => False
  end.
Proof.
  induction dirs as [|d rest IH]; cbn [firstNvm]; [constructor|].
  destruct (existsSync node (join node [d; lit "nvm.sh"])) eqn:E.
  - exists [], d, rest. split_and!; [reflexivity | constructor | exact E | reflexivity].
  - destruct (firstNvm node rest) as [|part [|]]; [|
      destruct IH as (before & nvmDir & after & -> & Hb & He & ->) | done].
    + by constructor.
    + exists (d :: before), nvmDir, after.
      split_and!; [reflexivity | by constructor | exact He | reflexivity].
Qed.

(** When [~/.nvm/nvm.sh] exists, the setup for a shell other than zsh
    begins with the nvm part for [~/.nvm], whatever [$NVM_DIR] says: the
    override is only looked at after the two conventional directories. *)
Theorem nvm_home_first (node : Node) (home : jsstring) :
  join node [home; lit ".nvm"] <> [] ->
  existsSync node (join node [join node [home; lit ".nvm"]; lit "nvm.sh"]) = true ->
  exists rest,
    unixEnvParts node home false
    = (lit "export NVM_DIR=" ++ dquote ++ join node [home; lit ".nvm"] ++ dquote
         ++ lit "; source " ++ dquote
         ++ join node [join node [home; lit ".nvm"]; lit "nvm.sh"]
         ++ dquote ++ lit " 2>/dev/null") :: rest.
Proof.
  intros Hne He. unfold unixEnvParts, nvmDirs. cbn [filterBoolean].
  destruct (join node [home; lit ".nvm"]) as [|u d] eqn:Hj; [done|].
  cbn [truthy firstNvm]. rewrite He. cbn [app]. by eexists.
Qed.

(** ** [start] settles *)

Ltac clock_step :=
  intros; intros ? ?; unfold ClockIs, SettingsAre in *;
  try rewrite stop_result;
  unfold setError, setState, mbind, M_bind, modifyThis, emit, elapse, mret, M_ret;
  cbn [this trace now fst snd settings set_state set_lastError set_earlyExitCode
       set_process];
  done.

Lemma deliver_now evs s : now (deliver evs s).2 = now s.
Proof.
  assert (H3 : preserves (ClockIs (now s)) (modifyThis (set_process None))) by clock_step.
  assert (H4 : forall c, preserves (ClockIs (now s)) (modifyThis (set_earlyExitCode c)))
    by clock_step.
  assert (H5 : preserves (ClockIs (now s)) (setState stopped)) by clock_step.
  assert (H6 : forall message, preserves (ClockIs (now s)) (setError message))
    by clock_step.
  by apply (preserves_deliver (ClockIs (now s))).
Qed.

Lemma await_now a s : now (await a s).2 = now s + took a.
Proof.
  unfold await. pose proof (deliver_now (arrivals a) s) as Hn.
  destruct (total_deliver (arrivals a) s) as [u Hu].
  destruct (deliver (arrivals a) s) as [r s1] eqn:E. cbn [fst snd] in Hn, Hu. subst r.
  rewrite (bind_normal _ _ _ _ _ E). cbn. by rewrite Hn.
Qed.

Lemma fetch_now url p s : now (fetch url p s).2 = now s + took (wait p).
Proof.
  unfold fetch.
  rewrite (bind_normal (emit (Fetch url 2000)) _ s tt _ eq_refl).
  match goal with |- context [(await (wait p) ≫= _) ?s1] =>
    pose proof (await_now (wait p) s1) as Hn;
    destruct (total_await (wait p) s1) as [u Hu];
    destruct (await (wait p) s1) as [r s2] eqn:E2 end.
  cbn [fst snd now] in Hn, Hu. subst r. rewrite (bind_normal _ _ _ _ _ E2).
  by destruct (outcome p).
Qed.

Lemma checkServerHealth_now p s :
  0 <= took (wait p) -> now s <= now (checkServerHealth p s).2.
Proof.
  intros Hp. unfold checkServerHealth, tryCatch.
  pose proof (getUrl_result s) as Hurl.
  destruct (isLatin1 (projectDirectory (this s))).
  - rewrite (bind_normal _ _ _ _ _ Hurl).
    match goal with |- context [(fetch ?u p ≫= _) s] =>
      pose proof (fetch_now u p s) as Hn;
      destruct (fetch u p s) as [[status|e] s2] eqn:Ef end; cbn [snd] in Hn.
    + rewrite (bind_normal _ _ _ _ _ Ef). cbn. lia.
    + rewrite (bind_throw _ _ _ _ _ Ef). cbn. lia.
  - rewrite (bind_throw _ _ _ _ _ Hurl). cbn. lia.
Qed.

Lemma pollFrom_settles startTime timeoutMs turns :
  Forall wellTimed turns ->
  forall s, timeoutMs - (now s - startTime) <= pollInterval * Z.of_nat (length turns) ->
    exists b, (pollFrom startTime timeoutMs turns s).1 = Normal (Some b).
Proof.
  unfold pollInterval.
  induction 1 as [|tk rest [Hw Hn] Hrest IH]; intros s Hs; cbn [pollFrom];
    rewrite (bind_normal dateNow _ s (now s) s eq_refl);
    (case_bool_decide as Hlt; [|by exists false]);
    rewrite (bind_normal getThis _ s (this s) s eq_refl);
    (destruct (process (this s)); [|by exists false]).
  - cbn [length] in Hs. lia.
  - pose proof (checkServerHealth_now (probe tk) s Hw) as Hc.
    destruct (total_checkServerHealth (probe tk) s) as [b Hb].
    destruct (checkServerHealth (probe tk) s) as [r s1] eqn:E1.
    cbn [fst snd] in Hb, Hc. subst r.
    rewrite (bind_normal _ _ _ _ _ E1). destruct b; [by exists true|].
    unfold sleep. pose proof (await_now (nap tk) s1) as Ha.
    destruct (total_await (nap tk) s1) as [u Hu].
    destruct (await (nap tk) s1) as [r s2] eqn:E2. cbn [fst snd] in Ha, Hu. subst r.
    rewrite (bind_normal _ _ _ _ _ E2). apply IH.
    cbn [length] in Hs. unfold pollInterval in Hn. lia.
Qed.

Lemma settings_kept (st : Types.OpenCodeSettings) p :
  preserves (SettingsAre st) (checkServerHealth p).
Proof.
  assert (H1 : forall ms, preserves (SettingsAre st) (elapse ms)) by clock_step.
  assert (H2 : forall url ms, preserves (SettingsAre st) (emit (Fetch url ms)))
    by clock_step.
  assert (H3 : preserves (SettingsAre st) (modifyThis (set_process None))) by clock_step.
  assert (H4 : forall c, preserves (SettingsAre st) (modifyThis (set_earlyExitCode c)))
    by clock_step.
  assert (H5 : preserves (SettingsAre st) (setState stopped)) by clock_step.
  assert (H6 : forall message, preserves (SettingsAre st) (setError message))
    by clock_step.
  by apply preserves_checkServerHealth.
Qed.

Lemma startBody_settles spawnConfigOf deadlineOf (limit : Z) w s :
  (forall pm, settings pm = settings (this s) -> deadlineOf pm <= limit) ->
  Forall wellTimed (ticks w) ->
  limit <= pollInterval * Z.of_nat (length (ticks w)) ->
  exists b, (startBody spawnConfigOf deadlineOf w s).1 = Normal (Some b).
Proof.
  intros Hd Hw Hlen. unfold startBody.
  rewrite (bind_normal getThis _ s (this s) s eq_refl).
  destruct (bool_decide (state (this s) = running)
            || bool_decide (state (this s) = starting)); [by exists true|].
  do 4 (erewrite bind_normal by reflexivity).
  match goal with |- context [negb ?b] => destruct b end; cbn [negb];
    [|erewrite bind_normal by reflexivity; by exists false].
  match goal with |- context [(checkServerHealth ?p ≫= _) ?s0] =>
    destruct (total_checkServerHealth p s0) as [b Hb];
    pose proof (settings_kept (settings (this s)) p s0 eq_refl) as Hk;
    destruct (checkServerHealth p s0) as [r s1] eqn:E1 end.
  unfold SettingsAre in Hk. cbn [fst snd] in Hb, Hk. subst r.
  rewrite (bind_normal _ _ _ _ _ E1). destruct b.
  { erewrite bind_normal by reflexivity. by exists true. }
  do 4 (erewrite bind_normal by reflexivity).
  unfold waitForServerOrExit.
  match goal with |- context [((dateNow ≫= _) ≫= _) ?s3] =>
    destruct (pollFrom_settles (now s3) (deadlineOf (this s3)) (ticks w) Hw s3)
      as [ready Hr];
      [specialize (Hd (this s3) Hk); lia|];
    destruct (pollFrom (now s3) (deadlineOf (this s3)) (ticks w) s3) as [r s4] eqn:Hpoll
  end.
  cbn [fst snd] in Hr. subst r.
  erewrite (bind_normal (dateNow ≫= _));
    [|erewrite (bind_normal dateNow) by reflexivity; exact Hpoll].
  destruct ready.
  - erewrite bind_normal by reflexivity. by exists true.
  - rewrite (bind_normal getThis _ s4 (this s4) s4 eq_refl).
    destruct (bool_decide (state (this s4) = error)); [by exists false|].
    destruct (total_classifyFailure s4) as [r Hr].
    destruct (classifyFailure s4) as [r' s5] eqn:E5. cbn [fst snd] in Hr. subst r'.
    rewrite (bind_normal _ _ _ _ _ E5). by exists r.
Qed.

(** [start] settles.  If in every turn of the polling loop the clock does
    not run backwards during the probe and the sleep lasts at least its
    500 ms, the call of [src/ProcessManager.ts] has returned [true] or
    [false] by the end of 30 turns, and the call of the sibling copy by
    the end of [startupTimeout / 500] turns (rounded up). *)
Theorem start_settles (node : Node) (w : StartScript) (s : Machine) :
  Forall wellTimed (ticks w) ->
  (15000 <= 500 * Z.of_nat (length (ticks w)) ->
   exists b, (start node w s).1 = Normal (Some b))
  /\ (Types.startupTimeout (settings (this s)) <= 500 * Z.of_nat (length (ticks w)) ->
      exists b, (Sibling.start node w s).1 = Normal (Some b)).
Proof.
  intros Hw. split; intros Hlen.
  - exact (startBody_settles (shellSpawnConfig node) (fun _ => 15000) 15000 w s
             (fun _ _ => Z.le_refl _) Hw Hlen).
  - refine (startBody_settles (directSpawnConfig node)
              (fun pm => Types.startupTimeout (settings pm))
              (Types.startupTimeout (settings (this s))) w s _ Hw Hlen).
    intros pm ->. reflexivity.
Qed.

(** ** [getUrl] tells directories apart *)

Lemma allBytes_spec (f : N -> bool) :
  forallb f allBytes = true -> forall a, (a <= 255)%N -> f a = true.
Proof.
  intros H a Ha. rewrite forallb_forall in H. apply H.
  unfold allBytes. apply in_map_iff. exists (N.to_nat a).
  split; [apply N2Nat.id | apply in_seq; lia].
Qed.

Lemma headPair_ok a b : (a <= 255)%N -> (b <= 255)%N -> headPairOk a b = true.
Proof.
  intros Ha Hb.
  apply (allBytes_spec (fun b => headPairOk a b)); [|exact Hb].
  revert a Ha. apply (allBytes_spec (fun a => forallb (fun b => headPairOk a b) allBytes)).
  vm_compute. reflexivity.
Qed.

Lemma tailPair_ok b c : (b <= 255)%N -> (c <= 255)%N -> tailPairOk b c = true.
Proof.
  intros Hb Hc.
  apply (allBytes_spec (fun c => tailPairOk b c)); [|exact Hc].
  revert b Hb. apply (allBytes_spec (fun b => forallb (fun c => tailPairOk b c) allBytes)).
  vm_compute. reflexivity.
Qed.

Lemma unbase64_base64 (bytes : list N) :
  isLatin1 bytes = true -> unbase64 (base64 bytes) = bytes.
Proof.
  assert (Hind : forall n (l : list N), (length l < n)%nat ->
            isLatin1 l = true -> unbase64 (base64 l) = l).
  { induction n as [|n IH]; intros l Hlen Hl; [lia|].
    destruct l as [|a [|b [|c rest]]]; [reflexivity | | |].
    - apply isLatin1_Forall in Hl. inversion_clear Hl as [|? ? Ha _].
      pose proof (headPair_ok a 0 Ha ltac:(lia)) as H1.
      pose proof (tailPair_ok 0 0 ltac:(lia) ltac:(lia)) as H2.
      unfold headPairOk in H1. cbn [N.shiftr] in H1.
      apply andb_true_iff in H1 as [H1 _]. apply N.eqb_eq in H1.
      cbn [base64 unbase64]. rewrite N.eqb_refl.
      change (N.shiftr 0 4) with 0%N in H1. rewrite N.lor_0_r in H1.
      by rewrite H1.
    - apply isLatin1_Forall in Hl. inversion_clear Hl as [|? ? Ha Hl'].
      inversion_clear Hl' as [|? ? Hb _].
      pose proof (headPair_ok a b Ha Hb) as H1.
      pose proof (tailPair_ok b 0 Hb ltac:(lia)) as H2.
      unfold headPairOk in H1. unfold tailPairOk in H2.
      apply andb_true_iff in H1 as [H1 H1']. apply N.eqb_eq in H1, H1'.
      repeat (apply andb_true_iff in H2 as [H2 ?]).
      apply N.eqb_eq in H2. apply negb_true_iff in H0.
      change (N.shiftr 0 6) with 0%N in H0, H2. rewrite N.lor_0_r in H0, H2.
      cbn [base64 unbase64]. rewrite H0, N.eqb_refl, H1, H1', H2.
      do 2 f_equal. symmetry. rewrite N.mul_comm. apply N.div_mod. lia.
    - apply isLatin1_Forall in Hl. inversion_clear Hl as [|? ? Ha Hl'].
      inversion_clear Hl' as [|? ? Hb Hl''].
      inversion_clear Hl'' as [|? ? Hc Hrest].
      pose proof (headPair_ok a b Ha Hb) as H1.
      pose proof (tailPair_ok b c Hb Hc) as H2.
      unfold headPairOk in H1. unfold tailPairOk in H2.
      apply andb_true_iff in H1 as [H1 H1']. apply N.eqb_eq in H1, H1'.
      apply andb_true_iff in H2 as [H2 H4]. apply andb_true_iff in H2 as [H2 H3].
      apply andb_true_iff in H2 as [H2 H2'].
      apply N.eqb_eq in H2, H2'. apply negb_true_iff in H3, H4.
      cbn [base64 unbase64 app]. rewrite H3, H4, H1, H1', H2, H2'.
      rewrite IH; [| cbn [length] in Hlen; lia | by apply isLatin1_Forall].
      do 2 f_equal. f_equal. symmetry. rewrite N.mul_comm. apply N.div_mod. lia. }
  intros Hl. by apply (Hind (S (length bytes))); [lia|].
Qed.

(** [getUrl] tells project directories apart: two supervisors with the
    same hostname and port whose [getUrl] returns the same URL have the
    same project directory, since the base64 token can be read back. *)
Theorem getUrl_injective (s1 s2 : Machine) (url : jsstring) :
  Types.hostname (settings (this s1)) = Types.hostname (settings (this s2)) ->
  Types.port (settings (this s1)) = Types.port (settings (this s2)) ->
  (getUrl s1).1 = Normal url -> (getUrl s2).1 = Normal url ->
  projectDirectory (this s1) = projectDirectory (this s2).
Proof.
  intros Hh Hp. rewrite !getUrl_result.
  destruct (isLatin1 (projectDirectory (this s1))) eqn:H1; [|discriminate].
  destruct (isLatin1 (projectDirectory (this s2))) eqn:H2; [|discriminate].
  cbn [fst]. intros E1 E2.
  assert (Hu : urlOf (this s1) (base64 (projectDirectory (this s1)))
               = urlOf (this s2) (base64 (projectDirectory (this s2)))) by congruence.
  unfold urlOf in Hu. rewrite Hh, Hp in Hu.
  do 5 apply app_inv_head in Hu.
  rewrite <- (unbase64_base64 _ H1), <- (unbase64_base64 _ H2). by rewrite Hu.
Qed.

(** ** The further properties at sample inputs *)

Lemma start_true_needs_answer_witness :
  state (this (boot (vaultManager 15000) 0)) = running
  \/ state (this (boot (vaultManager 15000) 0)) = starting
  \/ answeredOk (precheck alreadyUp)
  \/ Exists (fun tk => answeredOk (probe tk)) (ticks alreadyUp).
Proof.
  apply (proj1 (start_true_needs_answer bashHost alreadyUp (boot (vaultManager 15000) 0))).
  vm_compute. reflexivity.
Defined.

Lemma start_without_directory_witness :
  (start bashHost alreadyUp unconfigured).1 = Normal (Some false)
  /\ fetchesOf (trace (start bashHost alreadyUp unconfigured).2) = [].
Proof.
  destruct (start_without_directory bashHost alreadyUp unconfigured) as [-> _];
    [left; reflexivity | reflexivity |].
  split; reflexivity.
Defined.

Lemma wait_gives_up_at_once_witness :
  waitForServerOrExit 0 [idle] polling = (Normal (Some false), polling).
Proof. apply (wait_gives_up_at_once 0 [idle] polling). left. lia. Defined.

Lemma exit_observer_quiet_witness :
  onExit (Some 0) None polling
  = (Normal tt,
     {| this := set_process None (this polling);
        trace := trace polling; now := now polling |}).
Proof.
  apply (exit_observer_quiet (Some 0) None polling).
  right. right. split; [vm_compute; reflexivity | right; reflexivity].
Defined.


Lemma observer_in_sync_witness :
  state (this stoppedAfterPolling)
  = default stopped (last (notifiedOf (trace stoppedAfterPolling))).
Proof.
  apply (observer_in_sync bashHost stoppedAfterPolling).
  do 2 apply reach_call. apply reach_new.
Defined.

Lemma signals_only_to_spawned_witness :
  (forall proc, process (this stoppedAfterPolling) = Some proc ->
     proc ∈ spawnedOf (trace stoppedAfterPolling))
  /\ (forall proc, (proc, SIGTERM) ∈ signalsSent (trace stoppedAfterPolling) ->
        proc ∈ spawnedOf (trace stoppedAfterPolling))
  /\ (forall ms proc, (ms, proc) ∈ timersOf (trace stoppedAfterPolling) ->
        ms = 2000 /\ proc ∈ spawnedOf (trace stoppedAfterPolling)).
Proof.
  apply (signals_only_to_spawned bashHost stoppedAfterPolling).
  do 2 apply reach_call. apply reach_new.
Defined.

Lemma start_without_url_witness :
  (start bashHost (neverReady 30) beyondLatin1).1 <> Normal (Some true)
  /\ fetchesOf (trace (start bashHost (neverReady 30) beyondLatin1).2) = [].
Proof.
  apply (proj1 (start_without_url bashHost (neverReady 30) beyondLatin1 eq_refl
                  (or_introl eq_refl))).
Defined.

Lemma child_environment_witness :
  env (options (buildSpawnConfig cmdHost (vaultManager 15000) (lit "opencode serve")))
  = processEnv cmdHost
  /\ env (options (buildSpawnConfig bashHost (vaultManager 15000) (lit "opencode serve")))
       !! lit "HOME" = Some (lit "/home/u").
Proof.
  split.
  - apply (proj1 (child_environment cmdHost (vaultManager 15000) (lit "opencode serve"))).
    reflexivity.
  - apply (proj2 (child_environment bashHost (vaultManager 15000) (lit "opencode serve"))).
    discriminate.
Defined.

Lemma unix_shell_command_witness :
  command (buildSpawnConfig bareHost (vaultManager 15000) (lit "opencode serve"))
  = lit "/bin/bash"
  /\ args (buildSpawnConfig bareHost (vaultManager 15000) (lit "opencode serve"))
     = [lit "-c"; lit "opencode serve"].
Proof.
  destruct (unix_shell_command bareHost (vaultManager 15000) (lit "opencode serve"))
    as (Hc & _ & _ & Ha); [discriminate|].
  split; [exact Hc | apply Ha; reflexivity].
Defined.

Lemma nvm_home_first_witness :
  exists rest,
    unixEnvParts nvmHost (lit "/home/u") false
    = (lit "export NVM_DIR=" ++ dquote ++ lit "/home/u/.nvm" ++ dquote
         ++ lit "; source " ++ dquote ++ lit "/home/u/.nvm/nvm.sh"
         ++ dquote ++ lit " 2>/dev/null") :: rest.
Proof.
  apply (nvm_home_first nvmHost (lit "/home/u")); [discriminate | reflexivity].
Defined.

Lemma start_settles_witness :
  exists b, (start bashHost (neverReady 30) (boot (vaultManager 15000) 0)).1
            = Normal (Some b).
Proof.
  refine (proj1 (start_settles bashHost (neverReady 30)
                   (boot (vaultManager 15000) 0) _) _).
  - apply Forall_replicate. unfold wellTimed, pollInterval. cbn. lia.
  - cbn. lia.
Defined.

Lemma getUrl_injective_witness :
  projectDirectory (this (boot (vaultManager 15000) 0))
  = projectDirectory (this (boot (vaultManager 1000) 7)).
Proof.
  apply (getUrl_injective (boot (vaultManager 15000) 0) (boot (vaultManager 1000) 7)
           (lit "http://127.0.0.1:14096/L3ZhdWx0")); reflexivity.
Defined.
